(** * Parent vs non-parent own-illness absences: the tabular core

    A shallow embedding of the table transforms of the pipeline
    (src/data/ipums_cps.py, src/features/parent_flags.py,
    src/analysis/did_model.py) and the properties their specification
    states about them.

    A pandas DataFrame is a finite map from column names to columns.  A
    column is either numpy-backed (object, int64, float64: a null is
    None/NaN) or a pandas nullable [Int64] column (a null is <NA>); the
    difference is visible in the code, because a comparison with NaN is
    False while a comparison with <NA> is <NA>.

    Numbers are taken exactly: an integer is a [Z], a finite float is the
    rational it denotes, and a float the code computes (a mean) is given
    by the rational it rounds.  Functions that can raise return [res];
    the function that assigns to its argument is also given on a store
    of tables, where the assignment is visible to the caller.

    Besides the table transforms the file embeds the person-level model
    call ([run_person_glm]), the extract request, the polling loop and
    the archive reader of the IPUMS client, and the period bands of the
    figures (src/viz/plots.py).  What the world answers (HTTP replies,
    clock readings, archive members) is an argument of the model. *)

From Stdlib Require Import ZArith QArith Ascii String List Lia Lqa.
From stdpp Require Import base option list gmap strings fin_maps sorting.

Open Scope string_scope.
Open Scope Z_scope.

(** ** Values, columns, tables *)

(** A cell of a numpy-backed column.  [Float] carries the value of a
    finite float as the rational it denotes. *)
Inductive cell :=
  | Int (z : Z)
  | Float (q : Q)
  | Text (s : string)
  | Null.

Inductive Series :=
  | Plain (l : list cell)
  | Int64 (l : list (option Z)).

Abbreviation DataFrame := (gmap string Series).

(** The exceptions the modelled code can raise. [KeyError c] is what
    [df[c]] raises for an absent column [c]. *)
Inductive error :=
  | KeyError (c : string)
  | TypeError
  | ValueError
  | AttributeError.

Inductive res (A : Type) :=
  | Ok (a : A)
  | Err (e : error).
Arguments Ok {A} a.
Arguments Err {A} e.

#[global] Instance res_ret : MRet res := fun A a => Ok a.
#[global] Instance res_bind : MBind res := fun A B f m =>
  match m with Ok a => f a | Err e => Err e end.
#[global] Instance res_fmap : FMap res := fun A B f m =>
  match m with Ok a => Ok (f a) | Err e => Err e end.

#[global] Instance error_eq_dec : EqDecision error.
Proof. solve_decision. Defined.
#[global] Instance Q_eq_dec : EqDecision Q.
Proof. solve_decision. Defined.
#[global] Instance cell_eq_dec : EqDecision cell.
Proof. solve_decision. Defined.

Definition series_len (s : Series) : nat :=
  match s with Plain l => length l | Int64 l => length l end.

(** The cells of a column, whatever its storage. *)
Definition series_cells (s : Series) : list cell :=
  match s with
  | Plain l => l
  | Int64 l => from_option Int Null <$> l
  end.

(** [df[c]] *)
Definition getitem (df : DataFrame) (c : string) : res Series :=
  match df !! c with Some s => Ok s | None => Err (KeyError c) end.

(** ** Numeric views *)

(** The result of [pd.to_numeric]: a numpy array of numbers where NaN
    is [None], or a masked integer array where <NA> is [None]. *)
Inductive Numeric :=
  | NNumpy (l : list (option Q))
  | NMasked (l : list (option Z)).

(** A boolean column; [None] is <NA> and only arises from masked data. *)
Abbreviation BoolSeries := (list (option bool)).

Definition is_integral (q : Q) : bool :=
  Qnum q mod Zpos (Qden q) =? 0.

Definition Q_to_Z (q : Q) : Z := Qnum q / Zpos (Qden q).

(** The values an int64 holds. *)
Definition in_int64 (z : Z) : bool := (- 2 ^ 63 <=? z) && (z <? 2 ^ 63).

(** A number the cast to [Int64] accepts: whole, and within int64. *)
Definition castable (q : Q) : bool := is_integral q && in_int64 (Q_to_Z q).

(** int(x) of a float: truncation toward zero. *)
Definition trunc (q : Q) : Z := Z.quot (Qnum q) (Zpos (Qden q)).

(** A group key.  Numbers are kept in lowest terms, so that equal
    numbers are equal keys; a null is no key at all ([groupby] drops
    the row, [dropna=True] being the default). *)
Inductive key :=
  | KNum (q : Q)
  | KText (s : string).

#[global] Instance key_eq_dec : EqDecision key.
Proof. solve_decision. Defined.

Abbreviation key3 := (key * key * key)%type.

Section Pandas.

(** The text-to-number parsers belong to the libraries the code calls:
    [parse_number] is what [pd.to_numeric] makes of a text cell
    ([None]: not a number), [parse_int] is Python's [int(str)]. *)
Variable parse_number : string → option Q.
Variable parse_int : string → option Z.

(** What [pd.to_numeric(_, errors="coerce")] makes of one cell. *)
Definition coerce (c : cell) : option Q :=
  match c with
  | Int z => Some (inject_Z z)
  | Float q => Some q
  | Text s => parse_number s
  | Null => None
  end.


(** The number a cell counts as once [.fillna(0)] has been applied to
    the coerced column: a null or unparseable cell counts as 0. *)
Definition filled (c : cell) : Q := default 0%Q (coerce c).

(** [pd.to_numeric(s, errors="coerce")].  The cells are read exactly.
    The library reads a column that holds a null, a float or text
    through float64, which holds every whole number up to 2^53 in
    magnitude exactly; the statements about the values the cast keeps
    carry that bound ([exact_numbers] below). *)
Definition to_numeric (s : Series) : Numeric :=
  match s with
  | Plain l => NNumpy (coerce <$> l)
  | Int64 l => NMasked l
  end.

(** [.astype("Int64")]: lossless only; a number with a fractional part,
    or a whole number that int64 cannot hold, raises TypeError ("cannot
    safely cast non-equivalent float64 to int64", or uint64 for a
    Python int from 2^63 on). *)
Definition astype_Int64 (n : Numeric) : res Series :=
  match n with
  | NNumpy l =>
      if forallb (λ o, from_option castable true o) l
      then Ok (Int64 (option_map Q_to_Z <$> l))
      else Err TypeError
  | NMasked l => Ok (Int64 l)
  end.

(** [.fillna(0)] on a numeric view. *)
Definition fillna0 (n : Numeric) : Numeric :=
  match n with
  | NNumpy l => NNumpy ((λ o, Some (default 0%Q o)) <$> l)
  | NMasked l => NMasked ((λ o, Some (default 0 o)) <$> l)
  end.

(** Elementwise test of a numeric column against scalars: NaN gives
    False, <NA> gives <NA>. *)
Definition num_test (p : Q → bool) (n : Numeric) : BoolSeries :=
  match n with
  | NNumpy l => (λ o, Some (from_option p false o)) <$> l
  | NMasked l => option_map (λ z, p (inject_Z z)) <$> l
  end.

Definition gt (n : Numeric) (k : Z) : BoolSeries :=
  num_test (λ q, negb (Qle_bool q (inject_Z k))) n.
Definition ge (n : Numeric) (k : Z) : BoolSeries :=
  num_test (λ q, Qle_bool (inject_Z k) q) n.
Definition le (n : Numeric) (k : Z) : BoolSeries :=
  num_test (λ q, Qle_bool q (inject_Z k)) n.

(** [.isin(ks)] never yields <NA>: a null is in no list of numbers. *)
Definition in_codes (ks : list Z) (q : Q) : bool :=
  existsb (λ k, Qeq_bool q (inject_Z k)) ks.
Definition isin (n : Numeric) (ks : list Z) : BoolSeries :=
  match n with
  | NNumpy l => (λ o, Some (from_option (in_codes ks) false o)) <$> l
  | NMasked l =>
      (λ o, Some (from_option (λ z, in_codes ks (inject_Z z)) false o)) <$> l
  end.

(** [&] and [|] on boolean columns (Kleene logic where <NA> occurs). *)
Definition and3 (a b : option bool) : option bool :=
  match a, b with
  | Some false, _ | _, Some false => Some false
  | Some true, Some true => Some true
  | _, _ => None
  end.
Definition or3 (a b : option bool) : option bool :=
  match a, b with
  | Some true, _ | _, Some true => Some true
  | Some false, Some false => Some false
  | _, _ => None
  end.
Definition band (a b : BoolSeries) : BoolSeries := zip_with and3 a b.
Definition bor (a b : BoolSeries) : BoolSeries := zip_with or3 a b.

(** A boolean column as a mask or as numpy data: <NA> cannot be
    converted and raises ValueError. *)
Definition to_bools (b : BoolSeries) : res (list bool) :=
  match mapM id b with Some l => Ok l | None => Err ValueError end.

Definition bool_to_cell (b : bool) : cell := Int (if b then 1 else 0).

(** [.astype(int)] of a boolean column. *)
Definition astype_int (b : BoolSeries) : res Series :=
  l ← to_bools b; Ok (Plain (bool_to_cell <$> l)).

(** *** Operations on a column as it is stored (no text parsing) *)

Definition cell_value (c : cell) : option Q :=
  match c with
  | Int z => Some (inject_Z z)
  | Float q => Some q
  | Text _ | Null => None
  end.

Definition values (s : Series) : Numeric :=
  match s with
  | Plain l => NNumpy (cell_value <$> l)
  | Int64 l => NMasked l
  end.

(** [s.fillna(0)] *)
Definition series_fillna0 (s : Series) : Series :=
  match s with
  | Plain l => Plain ((λ c, match c with Null => Int 0 | _ => c end) <$> l)
  | Int64 l => Int64 ((λ o, Some (default 0 o)) <$> l)
  end.

(** [s == k] *)
Definition series_eq (s : Series) (k : Z) : BoolSeries :=
  num_test (λ q, Qeq_bool q (inject_Z k)) (values s).

(** [s.isin(ks)] *)
Definition series_isin (s : Series) (ks : list Z) : BoolSeries :=
  isin (values s) ks.

(** ** The Recoder: [IpumsCpsClient.minimal_recode] *)

(** The body of both [for c in [...]] loops:
    [if c in df.columns: df[c] = pd.to_numeric(df[c],
    errors="coerce").astype("Int64")].  The table is updated in place,
    so when a cast raises, the columns coerced so far stay coerced: the
    result is the table as the loop left it and the exception, if any. *)
Fixpoint coerce_columns (cs : list string) (df : DataFrame)
    : DataFrame * option error :=
  match cs with
  | [] => (df, None)
  | c :: cs' =>
      match df !! c with
      | None => coerce_columns cs' df
      | Some s =>
          match astype_Int64 (to_numeric s) with
          | Ok s' => coerce_columns cs' (<[c := s']> df)
          | Err e => (df, Some e)
          end
      end
  end.

Definition typed_columns : list string :=
  ["YEAR"; "MONTH"; "STATEFIP"; "AGE"; "SEX"; "EDUC"; "EMPSTAT"].
Definition helper_columns : list string :=
  ["NCHILD"; "NCHLT5"; "MOMLOC"; "POPLOC"; "ABSENT"; "WHYABSNT"].

Definition own_ill_codes : list Z := [10].

(** [((df["ABSENT"].fillna(0) == 1) &
      (df["WHYABSNT"].isin(list(own_ill_codes)))).astype(int)] *)
Definition own_ill_flag (df : DataFrame) : res Series :=
  a ← getitem df "ABSENT";
  w ← getitem df "WHYABSNT";
  astype_int (band (series_eq (series_fillna0 a) 1)
                   (series_isin w own_ill_codes)).

(** The columns the two loops name. *)
Definition recoder_columns : list string :=
  (typed_columns ++ helper_columns)%list.

(** Every number in the named columns is whole (text that is not a
    number and nulls are not restricted). *)
Definition whole_cell (c : cell) : bool :=
  from_option is_integral true (coerce c).
Definition whole_series (s : Series) : bool :=
  forallb whole_cell (series_cells s).
Definition whole_numbers (df : DataFrame) : bool :=
  forallb (λ c, from_option whole_series true (df !! c)) recoder_columns.

(** Every number in the named columns is at most 2^53 in magnitude, the
    range in which float64 holds the whole numbers exactly. *)
Definition exact_cell (c : cell) : bool :=
  from_option
    (λ q, Qle_bool (inject_Z (- 2 ^ 53)) q && Qle_bool q (inject_Z (2 ^ 53)))
    true (coerce c).
Definition exact_series (s : Series) : bool :=
  forallb exact_cell (series_cells s).
Definition exact_numbers (df : DataFrame) : bool :=
  forallb (λ c, from_option exact_series true (df !! c)) recoder_columns.

(** The function as it runs on the caller's table: the final state of
    that table, and [None] for a normal return (of the same table) or
    the exception raised. *)
Definition minimal_recode_inplace (df : DataFrame)
    : DataFrame * option error :=
  match coerce_columns typed_columns df with
  | (df1, Some e) => (df1, Some e)
  | (df1, None) =>
      match coerce_columns helper_columns df1 with
      | (df2, Some e) => (df2, Some e)
      | (df2, None) =>
          match own_ill_flag df2 with
          | Ok f => (<["own_ill_absent" := f]> df2, None)
          | Err e => (df2, Some e)
          end
      end
  end.

(** The value [minimal_recode(df)] returns. *)
Definition minimal_recode (df : DataFrame) : res DataFrame :=
  match minimal_recode_inplace df with
  | (df', None) => Ok df'
  | (_, Some e) => Err e
  end.

(** ** The Parent Classifier: [make_parent_flags] *)

(** [pd.to_numeric(df.get(c), errors="coerce").fillna(0)].  For an
    absent column [df.get] is None, [pd.to_numeric(None)] is the float
    nan, and [nan.fillna] raises AttributeError. *)
Definition get_filled (df : DataFrame) (c : string) : res Numeric :=
  match df !! c with
  | Some s => Ok (fillna0 (to_numeric s))
  | None => Err AttributeError
  end.

(** The table built from a copy of [df]. *)
Definition make_parent_flags (df : DataFrame) : res DataFrame :=
  nch ← get_filled df "NCHILD";
  momloc ← get_filled df "MOMLOC";
  poploc ← get_filled df "POPLOC";
  nclt5 ← get_filled df "NCHLT5";
  is_parent ← astype_int (bor (bor (gt nch 0) (gt momloc 0)) (gt poploc 0));
  has_child_u5 ← astype_int (gt nclt5 0);
  Ok (<["has_child_u5" := has_child_u5]> (<["is_parent" := is_parent]> df)).

(** ** The Period Tagger: [_make_periods] *)

(** The period tests, on one year value. *)
Definition in_P1 (y : Q) : bool :=
  Qle_bool (inject_Z 1994) y && Qle_bool y (inject_Z 2007).
Definition in_P2 (y : Q) : bool :=
  Qle_bool (inject_Z 2008) y && Qle_bool y (inject_Z 2019).
Definition in_P3 (y : Q) : bool := Qle_bool (inject_Z 2020) y.

Definition exactly_one (p1 p2 p3 : Z) : Prop :=
  p1 = 1 ∧ p2 = 0 ∧ p3 = 0 ∨ p1 = 0 ∧ p2 = 1 ∧ p3 = 0 ∨ p1 = 0 ∧ p2 = 0 ∧ p3 = 1.

(** The table built from a copy of [df]. *)
Definition _make_periods (df : DataFrame) (year_col : string)
    : res DataFrame :=
  ycol ← getitem df year_col;
  let y := to_numeric ycol in
  p1 ← astype_int (band (ge y 1994) (le y 2007));
  p2 ← astype_int (band (ge y 2008) (le y 2019));
  p3 ← astype_int (ge y 2020);
  Ok (<["P3" := p3]> (<["P2" := p2]> (<["P1" := p1]> df))).

(** ** The Rate Aggregator: [_aggregate_monthly_rates] *)

(** [age.between(lo, hi)], both ends included. *)
Definition between (n : Numeric) (lo hi : Z) : BoolSeries :=
  band (ge n lo) (le n hi).

(** [x.loc[keep]]: the entries where the mask is True. *)
Definition loc_mask {A} (keep : list bool) (l : list A) : list A :=
  fst <$> filter (λ r, snd r = true) (zip l keep).

Definition cell_key (c : cell) : option key :=
  match c with
  | Int z => Some (KNum (inject_Z z))
  | Float q => Some (KNum (Qred q))
  | Text s => Some (KText s)
  | Null => None
  end.

Definition row_key (y m p : cell) : option key3 :=
  ky ← cell_key y; km ← cell_key m; kp ← cell_key p; Some (ky, km, kp).

(** The order in which [groupby] (with [sort=True], the default) emits
    the groups: numbers by value and before text, text by code point,
    the three keys lexicographically. *)
Definition key_leb (a b : key) : bool :=
  match a, b with
  | KNum p, KNum q => Qle_bool p q
  | KNum _, KText _ => true
  | KText _, KNum _ => false
  | KText s, KText t => String.leb s t
  end.

Definition key_ltb (a b : key) : bool :=
  key_leb a b && negb (bool_decide (a = b)).

Definition key3_leb (a b : key3) : bool :=
  let '(a1, a2, a3) := a in
  let '(b1, b2, b3) := b in
  key_ltb a1 b1
  || bool_decide (a1 = b1)
     && (key_ltb a2 b2 || bool_decide (a2 = b2) && key_leb a3 b3).

(** The rows that reach [groupby]: key and [own_ill_absent] cell of
    every kept row whose three keys are all present. *)
Definition keyed_rows (keep : list bool) (y m p v : Series)
    : list (key3 * cell) :=
  omap (λ r, k ← fst r; Some (k, snd r))
    (loc_mask keep
       (zip (zip_with (λ ym p, row_key ym.1 ym.2 p)
               (zip (series_cells y) (series_cells m)) (series_cells p))
            (series_cells v))).

Definition group_keys (rows : list (key3 * cell)) : list key3 :=
  merge_sort (λ a b, Is_true (key3_leb a b)) (remove_dups (fst <$> rows)).

Definition group_values (rows : list (key3 * cell)) (k : key3) : list cell :=
  snd <$> filter (λ r, fst r = k) rows.

Definition Qsum (l : list Q) : Q := foldr Qplus 0%Q l.

Definition is_text (c : cell) : bool :=
  match c with Text _ => true | _ => false end.

(** [.mean()] of one group: nulls are skipped, a group of nulls only
    has mean NaN, text cannot be averaged.  The float result is given
    by the rational it rounds. *)
Definition mean (vs : list cell) : res cell :=
  if existsb is_text vs then Err TypeError
  else match omap cell_value vs with
       | [] => Ok Null
       | xs => Ok (Float (Qsum xs / inject_Z (Z.of_nat (length xs))))
       end.

(** [.astype(int)] of one cell: floats are truncated, text goes
    through [int(str)], a null cannot be converted.  The integer is
    given without the width of int64: the tables of the pipeline hold
    int64-backed numbers, and the arithmetic on them is wrapped where it
    is done ([wrap64]).  For a null the error is that of NaN and <NA>
    (None in an object column is a TypeError instead); the theorems
    apply the cast to columns without nulls. *)
Definition cell_int (c : cell) : res Z :=
  match c with
  | Int z => Ok z
  | Float q => Ok (trunc q)
  | Text s =>
      match parse_int s with Some z => Ok z | None => Err ValueError end
  | Null => Err ValueError
  end.

Definition key_int (k : key) : res Z :=
  match k with
  | KNum q => Ok (trunc q)
  | KText s =>
      match parse_int s with Some z => Ok z | None => Err ValueError end
  end.

(** [g["own_ill_absent"].mean().rename(columns={"own_ill_absent":
    "rate"})] followed by [.astype({"YEAR": int, "MONTH": int,
    "is_parent": int})]: one row per group. *)
Definition summarise (rows : list (key3 * cell)) : res DataFrame :=
  let ks := group_keys rows in
  rates ← mapM (λ k, mean (group_values rows k)) ks;
  years ← mapM (λ k : key3, key_int k.1.1) ks;
  months ← mapM (λ k : key3, key_int k.1.2) ks;
  parents ← mapM (λ k : key3, key_int k.2) ks;
  Ok (<["rate" := Plain rates]>
      (<["is_parent" := Plain (Int <$> parents)]>
       (<["MONTH" := Plain (Int <$> months)]>
        (<["YEAR" := Plain (Int <$> years)]> (∅ : DataFrame))))).

Definition employed_codes : list Z := [10; 12].

(** [keep = (emp.isin([10, 12])) & (age.between(25, 49))] *)
Definition eligibility_mask (df : DataFrame) : res (list bool) :=
  emp ← get_filled df "EMPSTAT";
  age ← get_filled df "AGE";
  to_bools (band (isin emp employed_codes) (between age 25 49)).

Definition _aggregate_monthly_rates (df : DataFrame) : res DataFrame :=
  keep ← eligibility_mask df;
  y ← getitem df "YEAR";
  m ← getitem df "MONTH";
  p ← getitem df "is_parent";
  v ← getitem df "own_ill_absent";
  summarise (keyed_rows keep y m p v).

(** *** The table read row by row *)

(** One surveyed person-month, with the six fields the Rate Aggregator
    reads. *)
Record observation := {
  o_emp : cell;
  o_age : cell;
  o_year : cell;
  o_month : cell;
  o_parent : cell;
  o_ill : cell
}.

(** [df] holds exactly the observations [obs], one per row. *)
Definition has_rows (df : DataFrame) (obs : list observation) : Prop :=
  ∃ se sa sy sm sp sv,
    df !! "EMPSTAT" = Some se ∧ df !! "AGE" = Some sa ∧
    df !! "YEAR" = Some sy ∧ df !! "MONTH" = Some sm ∧
    df !! "is_parent" = Some sp ∧ df !! "own_ill_absent" = Some sv ∧
    series_cells se = o_emp <$> obs ∧ series_cells sa = o_age <$> obs ∧
    series_cells sy = o_year <$> obs ∧ series_cells sm = o_month <$> obs ∧
    series_cells sp = o_parent <$> obs ∧ series_cells sv = o_ill <$> obs.

(** The eligibility filter on one observation: employment status in
    {10, 12} and age in [25, 49], a missing or unparseable cell counting
    as 0. *)
Definition eligible (o : observation) : bool :=
  in_codes employed_codes (filled (o_emp o))
  && (Qle_bool (inject_Z 25) (filled (o_age o))
      && Qle_bool (filled (o_age o)) (inject_Z 49)).

Definition obs_row (o : observation) : option (key3 * cell) :=
  k ← row_key (o_year o) (o_month o) (o_parent o); Some (k, o_ill o).

(** An observation as the Recoder and the Parent Classifier leave it:
    year and month are integers or null, the two flags are 0 or 1. *)
Definition int_or_null (c : cell) : Prop := c = Null ∨ ∃ z, c = Int z.
Definition is_flag (c : cell) : Prop := c = Int 0 ∨ c = Int 1.
Definition flagged (o : observation) : Prop :=
  int_or_null (o_year o) ∧ int_or_null (o_month o) ∧
  is_flag (o_parent o) ∧ is_flag (o_ill o).

(** The observations of the group [(y, m, p)]. *)
Definition in_group (y m p : Z) (o : observation) : Prop :=
  eligible o = true ∧ o_year o = Int y ∧ o_month o = Int m ∧ o_parent o = Int p.



#[global] Instance in_group_dec y m p o : Decision (in_group y m p o).
Proof. unfold in_group. apply _. Defined.

(** The group key of three integers, and back. *)
Definition zkey (t : Z * Z * Z) : key3 :=
  (KNum (inject_Z t.1.1), KNum (inject_Z t.1.2), KNum (inject_Z t.2)).

Definition key_z (k : key) : Z :=
  match k with KNum q => trunc q | KText _ => 0 end.

Definition key3_ints (k : key3) : Z * Z * Z :=
  (key_z k.1.1, key_z k.1.2, key_z k.2).

(** The mean of the numbers among [vs]. *)
Definition rate_value (vs : list cell) : Q :=
  Qdiv (Qsum (omap cell_value vs))
       (inject_Z (Z.of_nat (length (omap cell_value vs)))).

(** The output table with one row per entry of [ts], [rs]. *)
Definition rate_table (ts : list (Z * Z * Z)) (rs : list cell) : DataFrame :=
  <["rate" := Plain rs]>
  (<["is_parent" := Plain (Int <$> ((λ t : Z * Z * Z, t.2) <$> ts))]>
   (<["MONTH" := Plain (Int <$> ((λ t : Z * Z * Z, t.1.2) <$> ts))]>
    (<["YEAR" := Plain (Int <$> ((λ t : Z * Z * Z, t.1.1) <$> ts))]>
     (∅ : DataFrame)))).

(** ** The Group-Rate OLS: [run_monthlevel_ols] *)

Definition wrap64 (z : Z) : Z := (z + 2 ^ 63) mod 2 ^ 64 - 2 ^ 63.

(** [s.astype(int)] as a list of integers. *)
Definition series_astype_int (s : Series) : res (list Z) :=
  mapM cell_int (series_cells s).

(** What the function asks statsmodels to fit: [smf.ols(formula=...,
    data=df).fit(cov_type=..., cov_kwds={"groups": ...})].  The fit
    itself and the rendering of its summary are library code. *)
Record Fit := {
  fit_formula : string;
  fit_data : DataFrame;
  fit_cov_type : string;
  fit_groups : Series
}.

Definition ols_formula : string := "rate ~ is_parent * (P2 + P3) + C(MONTH)".

Definition run_monthlevel_ols (rates : DataFrame) : res Fit :=
  df ← _make_periods rates "YEAR";
  ycol ← getitem df "YEAR";
  years ← series_astype_int ycol;
  mcol ← getitem df "MONTH";
  months ← series_astype_int mcol;
  let month_id :=
    Plain (Int <$> zip_with (λ y m, wrap64 (wrap64 (y * 12) + m)) years months) in
  let df := <["month_id" := month_id]> df in
  Ok {| fit_formula := ols_formula; fit_data := df;
        fit_cov_type := "cluster"; fit_groups := month_id |}.

(** ** Tables as shared objects *)

(** A table is a mutable object: a function receives a reference to it.
    [minimal_recode] assigns columns to the table it was given and
    returns that same table; [make_parent_flags] starts with
    [df = df.copy()] and works on the copy. *)
Abbreviation heap := (gmap nat DataFrame).

Definition minimal_recode_ref (r : nat) (h : heap) : option (heap * res nat) :=
  df ← h !! r;
  let '(df', e) := minimal_recode_inplace df in
  Some (<[r := df']> h, match e with None => Ok r | Some e => Err e end).

Definition make_parent_flags_ref (r : nat) (h : heap)
    : option (heap * res nat) :=
  df ← h !! r;
  let r' := fresh (dom h) in
  match make_parent_flags df with
  | Ok df' => Some (<[r' := df']> h, Ok r')
  | Err e => Some (<[r' := df]> h, Err e)
  end.

End Pandas.

(** ** The model formula *)








(** ** Parsers for the examples *)

Definition digit_of (a : ascii) : option Z :=
  let n := Z.of_N (N_of_ascii a) in
  if (48 <=? n) && (n <=? 57) then Some (n - 48) else None.

Fixpoint digits_value (acc : Z) (s : string) : option Z :=
  match s with
  | EmptyString => Some acc
  | String a s' => d ← digit_of a; digits_value (10 * acc + d) s'
  end.

(** Plain decimal numerals; any other text is not a number. *)
Definition decimal_int (s : string) : option Z :=
  match s with
  | EmptyString => None
  | _ => digits_value 0 s
  end.

Definition decimal_number (s : string) : option Q :=
  inject_Z <$> decimal_int s.

(** ** Example tables *)

(** Six person-months as an extract could deliver them: numbers, numbers
    as text, a missing age and a year that is not a number. *)
Definition raw_example : DataFrame :=
  <["YEAR" := Plain [Int 2007; Int 2007; Text "2007"; Int 2020; Int 2020;
                     Text "n/a"]]>
  (<["MONTH" := Plain [Int 1; Int 1; Int 1; Int 3; Int 3; Int 3]]>
  (<["AGE" := Plain [Int 30; Text "35"; Int 40; Int 28; Null; Int 30]]>
  (<["EMPSTAT" := Plain [Int 10; Int 12; Int 10; Int 10; Int 10; Int 10]]>
  (<["NCHILD" := Plain [Int 0; Int 2; Int 1; Int 0; Int 0; Int 0]]>
  (<["NCHLT5" := Plain [Int 0; Int 1; Int 0; Int 0; Int 0; Int 0]]>
  (<["MOMLOC" := Plain [Int 0; Int 0; Int 0; Int 2; Null; Int 0]]>
  (<["POPLOC" := Plain [Int 0; Int 0; Int 0; Int 0; Int 0; Int 0]]>
  (<["ABSENT" := Plain [Int 0; Int 1; Int 1; Text "1"; Int 1; Int 1]]>
  (<["WHYABSNT" := Plain [Null; Int 10; Int 5; Int 10; Int 10; Int 10]]>
   ∅))))))))).

Definition or_empty (r : res DataFrame) : DataFrame :=
  match r with Ok df => df | Err _ => ∅ end.

Definition recoded_example : DataFrame :=
  or_empty (minimal_recode decimal_number raw_example).

Definition flagged_example : DataFrame :=
  or_empty (make_parent_flags decimal_number recoded_example).

Definition rates_example : DataFrame :=
  or_empty (_aggregate_monthly_rates decimal_number decimal_int flagged_example).

Definition tagged_example : DataFrame :=
  or_empty (_make_periods decimal_number rates_example "YEAR").

(** The rows of [flagged_example]. *)
Definition observations_example : list observation :=
  [ {| o_emp := Int 10; o_age := Int 30; o_year := Int 2007; o_month := Int 1;
       o_parent := Int 0; o_ill := Int 0 |};
    {| o_emp := Int 12; o_age := Int 35; o_year := Int 2007; o_month := Int 1;
       o_parent := Int 1; o_ill := Int 1 |};
    {| o_emp := Int 10; o_age := Int 40; o_year := Int 2007; o_month := Int 1;
       o_parent := Int 1; o_ill := Int 0 |};
    {| o_emp := Int 10; o_age := Int 28; o_year := Int 2020; o_month := Int 3;
       o_parent := Int 1; o_ill := Int 1 |};
    {| o_emp := Int 10; o_age := Null; o_year := Int 2020; o_month := Int 3;
       o_parent := Int 0; o_ill := Int 1 |};
    {| o_emp := Int 10; o_age := Int 30; o_year := Null; o_month := Int 3;
       o_parent := Int 0; o_ill := Int 1 |} ].

Definition series_delete (i : nat) (s : Series) : Series :=
  match s with
  | Plain l => Plain (delete i l)
  | Int64 l => Int64 (delete i l)
  end.

(** The table without its row [i]. *)
Definition drop_row (i : nat) (df : DataFrame) : DataFrame :=
  series_delete i <$> df.

Definition example_before : list observation := take 4 observations_example.
Definition example_after : list observation := drop 5 observations_example.

(** The fifth row of the example: employed, age missing. *)
Definition example_row : observation :=
  {| o_emp := Int 10; o_age := Null; o_year := Int 2020; o_month := Int 3;
     o_parent := Int 0; o_ill := Int 1 |}.

(** One person-month with every column the Recoder names, the age
    being 25.5. *)
Definition fraction_example : DataFrame :=
  <["YEAR" := Plain [Int 2007]]>
  (<["MONTH" := Plain [Int 1]]>
  (<["STATEFIP" := Plain [Int 6]]>
  (<["AGE" := Plain [Float (51 # 2)]]>
  (<["SEX" := Plain [Int 1]]>
  (<["EDUC" := Plain [Int 73]]>
  (<["EMPSTAT" := Plain [Int 10]]>
  (<["NCHILD" := Plain [Int 0]]>
  (<["NCHLT5" := Plain [Int 0]]>
  (<["MOMLOC" := Plain [Int 0]]>
  (<["POPLOC" := Plain [Int 0]]>
  (<["ABSENT" := Plain [Int 1]]>
  (<["WHYABSNT" := Plain [Int 10]]> ∅)))))))))))).


(** ** The columns the components read *)

(** [make_parent_flags] reads four columns with [df.get], in this
    order. *)
Definition parent_inputs : list string :=
  ["NCHILD"; "MOMLOC"; "POPLOC"; "NCHLT5"].

(** [_aggregate_monthly_rates] reads EMPSTAT and AGE with [df.get], then
    the three group keys, then the column it averages. *)
Definition aggregator_inputs : list string :=
  ["EMPSTAT"; "AGE"; "YEAR"; "MONTH"; "is_parent"; "own_ill_absent"].

(** The first of the columns [cs] that the table does not have. *)
Definition first_absent (df : DataFrame) (cs : list string) : option string :=
  head (filter (λ c, df !! c = None) cs).


(** A table that cannot pass the eligibility filter: one person aged 60,
    one person who is not employed. *)
Definition idle_example : DataFrame :=
  <["EMPSTAT" := Plain [Int 10; Int 21]]>
  (<["AGE" := Plain [Int 60; Int 30]]>
  (<["YEAR" := Plain [Int 2007; Int 2007]]>
  (<["MONTH" := Plain [Int 1; Int 1]]>
  (<["is_parent" := Plain [Int 0; Int 1]]>
  (<["own_ill_absent" := Plain [Int 1; Int 0]]> ∅))))).

Definition idle_observations : list observation :=
  [ {| o_emp := Int 10; o_age := Int 60; o_year := Int 2007; o_month := Int 1;
       o_parent := Int 0; o_ill := Int 1 |};
    {| o_emp := Int 21; o_age := Int 30; o_year := Int 2007; o_month := Int 1;
       o_parent := Int 1; o_ill := Int 0 |} ].

(** The raw example classified without recoding. *)
Definition raw_flagged_example : DataFrame :=
  or_empty (make_parent_flags decimal_number raw_example).

(** The raw example without its WHYABSNT column, and the state in which
    a failing Recoder call leaves it. *)
Definition no_reason_example : DataFrame := delete "WHYABSNT" raw_example.

Definition half_recoded_example : DataFrame :=
  fst (minimal_recode_inplace decimal_number no_reason_example).



(** ** Failures outside the table operations *)

(** The places where the client raises RuntimeError (the message texts
    are not modelled). *)
Inductive reason :=
  | ExtractStatus (status : string)
  | NoFiles
  | NoParquet.

Inductive failure :=
  | Raised (e : error)
  | PatsyError
  | RequestException
  | RuntimeError (r : reason)
  | TimeoutError.

Inductive outcome (A : Type) :=
  | Returns (a : A)
  | Raises (f : failure).
Arguments Returns {A} a.
Arguments Raises {A} f.

#[global] Instance outcome_ret : MRet outcome := fun A a => Returns a.


(** ** The person-level model: [run_person_glm] *)





Section PersonModel.

Variable parse_number : string → option Q.
Variable parse_int : string → option Z.


End PersonModel.

(** ** The extract request: [IpumsCpsClient._build_extract] *)

Definition IPUMS_VARS : list string :=
  ["YEAR"; "MONTH"; "SERIAL"; "CPSID"; "STATEFIP"; "AGE"; "SEX"; "EDUC";
   "EMPSTAT"; "ABSENT"; "WHYABSNT"; "UHRSWORKT"; "CLASSWKR"; "IND"; "OCC";
   "NCHILD"; "NCHLT5"; "MOMLOC"; "POPLOC"].

(** The request: [samples] is [{"years": ..., "months": ...}],
    [variables] the list of [{"name": v}], [caseSelect] maps a variable
    to its [{"min": ..., "max": ...}]. *)
Record Extract := {
  description : string;
  dataFormat : string;
  sample_years : list Z;
  sample_months : list Z;
  variables : list string;
  caseSelect : list (string * (Z * Z))
}.

(** [list(range(a, b))] *)
Definition range (a b : Z) : list Z := seqZ a (b - a).

(** [this_year] is [pd.Timestamp.today().year]. *)
Definition _build_extract (this_year : Z) : Extract :=
  {| description := "Parents vs non-parents own-illness absences, 1994+";
     dataFormat := "parquet";
     sample_years := range 1994 (this_year + 1);
     sample_months := range 1 13;
     variables := IPUMS_VARS;
     caseSelect := [("AGE", (25, 49))] |}.

(** ** Waiting for the extract: [IpumsCpsClient.poll_extract] *)

(** A JSON value as [resp.json()] returns it; an object holds each key
    once. *)
#[warnings="-register-all"] Inductive json :=
  | JNull
  | JBool (b : bool)
  | JNum (q : Q)
  | JStr (s : string)
  | JList (l : list json)
  | JDict (d : list (string * json)).

(** [js.get(k)]: None for a key the dict lacks; only a dict has [get]. *)
Definition dict_get (js : json) (k : string) : outcome json :=
  match js with
  | JDict d =>
      Returns (from_option snd JNull (List.find (λ kv, String.eqb (fst kv) k) d))
  | _ => Raises (Raised AttributeError)
  end.

(** What one request gives: [requests.get] or [raise_for_status] raises,
    or the body is not JSON ([r.json()] raises, a ValueError), or it is
    the JSON value [js]. *)
Inductive reply :=
  | NoReply
  | NotJson
  | Json (js : json).

(** One pass of the loop as the world answers it: the reply to the GET
    and the reading of [time.time()] the pass takes if the status does
    not end the loop. *)
Record pass := {
  p_reply : reply;
  p_clock : Q
}.

(** [time.time() - start > timeout_s] *)
Definition timed_out (timeout_s start clock : Q) : bool :=
  negb (Qle_bool (clock - start) timeout_s).

(** The loop, run against the passes [passes]; [None] when they end
    while the loop is still asleep.  A status that is a list or a dict
    cannot be looked up in a set (TypeError). *)
Fixpoint poll_extract (timeout_s start : Q) (passes : list pass)
    : option (outcome json) :=
  match passes with
  | [] => None
  | p :: rest =>
      let sleep :=
        if timed_out timeout_s start (p_clock p)
        then Some (Raises TimeoutError)
        else poll_extract timeout_s start rest in
      match p_reply p with
      | NoReply => Some (Raises RequestException)
      | NotJson => Some (Raises (Raised ValueError))
      | Json js =>
          match dict_get js "status" with
          | Raises f => Some (Raises f)
          | Returns (JStr status) =>
              if bool_decide (status = "completed") then Some (Returns js)
              else if bool_decide (status ∈ ["failed"; "canceled"])
                   then Some (Raises (RuntimeError (ExtractStatus status)))
                   else sleep
          | Returns (JList _) | Returns (JDict _) =>
              Some (Raises (Raised TypeError))
          | Returns _ => sleep
          end
      end
  end.

(** A pass after which the loop sleeps: a JSON object whose status is
    not one of completed, failed, canceled (nor a list or a dict), read
    before the time is up. *)
Definition waiting (timeout_s start : Q) (p : pass) : Prop :=
  ∃ js status,
    p_reply p = Json js ∧ dict_get js "status" = Returns status ∧
    match status with
    | JStr s => s ∉ ["completed"; "failed"; "canceled"]
    | JList _ | JDict _ => False
    | _ => True
    end ∧
    (p_clock p - start <= timeout_s)%Q.

(** The extract is ready: the reply is a JSON object with status
    "completed". *)
Definition completed (p : pass) (js : json) : Prop :=
  p_reply p = Json js ∧ dict_get js "status" = Returns (JStr "completed").

(** Four passes ten seconds apart, the extract never getting ready. *)
Definition queued : json := JDict [("number", JNum 7); ("status", JStr "queued")].

Definition passes_example : list pass :=
  [ {| p_reply := Json queued; p_clock := 100 |};
    {| p_reply := Json queued; p_clock := 110 |};
    {| p_reply := Json queued; p_clock := 120 |};
    {| p_reply := Json queued; p_clock := 130 |} ].

(** ** The downloaded archive: [IpumsCpsClient.load_parquet_from_zip] *)

(** [s.endswith(suffix)] *)
Definition endswith (s suffix : string) : bool :=
  let n := String.length s in
  let k := String.length suffix in
  (k <=? n)%nat && String.eqb (substring (n - k) k s) suffix.

Section Archive.

(** The bytes of an archive member, and [pd.read_parquet] on them (a
    table, or whatever the reader raises). *)
Variable content : Type.
Variable read_parquet : content → outcome DataFrame.

(** [zf.open(name)]: the entry of that name; of two entries with one
    name the archive's directory keeps the later. *)
Definition zip_open (zf : list (string * content)) (name : string)
    : option content :=
  snd <$> last (filter (λ m, fst m = name) zf).

(** The function on the entries of the opened archive, in the order of
    [zf.namelist()]. *)
Definition load_parquet_from_zip (zf : list (string * content))
    : outcome DataFrame :=
  match filter (λ n, endswith n ".parquet" = true) (fst <$> zf) with
  | [] => Raises (RuntimeError NoParquet)
  | name :: _ =>
      match zip_open zf name with
      | Some c => read_parquet c
      | None => Raises (Raised (KeyError name))
      end
  end.

End Archive.

(** An archive with a text file and three parquet members, the last of
    which repeats the name of the first. *)
Definition archive_example : list (string * DataFrame) :=
  [("readme.txt", ∅); ("cps_00007.parquet", raw_example);
   ("codebook.parquet", ∅); ("cps_00007.parquet", recoded_example)].

(** ** The period bands of the figures: [_period_bands] *)

(** A calendar day (year, month, day); [pd.Timestamp]s at midnight are
    ordered as these triples are. *)
Definition day_le (a b : Z * Z * Z) : bool :=
  (a.1.1 <? b.1.1)
  || (a.1.1 =? b.1.1) && ((a.1.2 <? b.1.2) || (a.1.2 =? b.1.2) && (a.2 <=? b.2)).

(** The three [ax.axvspan(lo, hi)] calls. *)
Definition _period_bands : list ((Z * Z * Z) * (Z * Z * Z)) :=
  [((1994, 1, 1), (2007, 12, 31));
   ((2008, 1, 1), (2019, 12, 31));
   ((2020, 1, 1), (2035, 1, 1))].

Definition in_band (d : Z * Z * Z) (b : (Z * Z * Z) * (Z * Z * Z)) : bool :=
  day_le b.1 d && day_le d b.2.

(** The date [_load_rates] gives a row: the first day of its month. *)
Definition row_date (year month : Z) : Z * Z * Z := (year, month, 1).

(** * Properties *)

(** ** Numbers *)

Lemma is_integral_inject_Z z : is_integral (inject_Z z) = true.
Proof. unfold is_integral; simpl. rewrite Z.mod_1_r. reflexivity. Qed.

Lemma Q_to_Z_inject_Z z : Q_to_Z (inject_Z z) = z.
Proof. unfold Q_to_Z; simpl. apply Z.div_1_r. Qed.

Lemma is_integral_eq q : is_integral q = true → (q == inject_Z (Q_to_Z q))%Q.
Proof.
  unfold is_integral, Q_to_Z, Qeq; simpl. intros H%Z.eqb_eq.
  pose proof (Z.div_mod (Qnum q) (Zpos (Qden q)) ltac:(lia)). lia.
Qed.


Lemma inject_Z_eq_iff a b : (inject_Z a == inject_Z b)%Q ↔ a = b.
Proof. unfold Qeq; simpl. lia. Qed.


(** ** Boolean columns *)

Lemma to_bools_Ok b l : to_bools b = Ok l ↔ b = Some <$> l.
Proof.
  unfold to_bools. split.
  - destruct (mapM id b) as [l'|] eqn:E; [|done]. intros [= <-].
    apply mapM_Some in E. induction E as [|x y ? ? Hx]; simpl; [done|].
    simpl in Hx. by subst.
  - intros ->. replace (mapM id (Some <$> l)) with (Some l); [done|].
    symmetry. apply mapM_Some. induction l; constructor; done.
Qed.

Lemma astype_int_Ok b s :
  astype_int b = Ok s ↔ ∃ l, b = Some <$> l ∧ s = Plain (bool_to_cell <$> l).
Proof.
  unfold astype_int. split.
  - destruct (to_bools b) as [l|] eqn:E; simpl; [|done].
    intros [= <-]. apply to_bools_Ok in E. eauto.
  - intros (l & Hb%to_bools_Ok & ->). rewrite Hb. done.
Qed.

Lemma and3_Some x y : and3 (Some x) (Some y) = Some (x && y).
Proof. by destruct x, y. Qed.

Lemma or3_Some x y : or3 (Some x) (Some y) = Some (x || y).
Proof. by destruct x, y. Qed.

Lemma bool_to_cell_one b : bool_to_cell b = Int 1 ↔ b = true.
Proof. destruct b; unfold bool_to_cell; split; congruence. Qed.

Lemma bool_to_cell_cases b : bool_to_cell b = Int 0 ∨ bool_to_cell b = Int 1.
Proof. destruct b; unfold bool_to_cell; auto. Qed.

Section Properties.

Context (pn : string → option Q) (pi : string → option Z).

(** ** The cast to nullable integers *)

Lemma astype_Int64_masked l : astype_Int64 (to_numeric pn (Int64 l)) = Ok (Int64 l).
Proof. reflexivity. Qed.

Lemma astype_Int64_cells s s' :
  astype_Int64 (to_numeric pn s) = Ok s' →
  ∃ l, s' = Int64 l ∧
    ∀ i c, series_cells s !! i = Some c →
      l !! i = Some (Q_to_Z <$> coerce pn c) ∧
      ∀ q, coerce pn c = Some q → is_integral q = true.
Proof.
  destruct s as [l0|l0]; simpl.
  - destruct (forallb _ _) eqn:E; [|done]. intros [= <-].
    eexists; split; [done|]. intros i c Hc. split.
    + rewrite !list_lookup_fmap, Hc. done.
    + intros q Hq. rewrite forallb_forall in E.
      assert (castable q = true) as [Hint _]%andb_true_iff; [|done].
      apply (E (Some q)). apply list_elem_of_In. rewrite <- Hq.
      apply list_elem_of_fmap_2. by eapply list_elem_of_lookup_2.
  - intros [= <-]. eexists; split; [done|]. intros i c.
    rewrite list_lookup_fmap. destruct (l0 !! i) as [[z|]|]; simpl; [| |done].
    + intros [= <-]; simpl. rewrite Q_to_Z_inject_Z. split; [done|].
      intros q [= <-]. apply is_integral_inject_Z.
    + intros [= <-]; simpl. split; [done|]. done.
Qed.

Lemma astype_Int64_again s s' :
  astype_Int64 (to_numeric pn s) = Ok s' →
  astype_Int64 (to_numeric pn s') = Ok s'.
Proof. intros (l & -> & _)%astype_Int64_cells. reflexivity. Qed.

(** ** The coercion loops *)

Lemma coerce_columns_app cs1 cs2 df :
  coerce_columns pn (cs1 ++ cs2) df =
  match coerce_columns pn cs1 df with
  | (df1, None) => coerce_columns pn cs2 df1
  | r => r
  end.
Proof.
  revert df. induction cs1 as [|c cs1 IH]; intros df; simpl; [done|].
  destruct (df !! c) as [s|]; [|apply IH].
  destruct (astype_Int64 _) as [s'|e]; [apply IH|done].
Qed.

Lemma coerce_columns_lookup cs df df' :
  coerce_columns pn cs df = (df', None) →
  ∀ c,
    match df !! c with
    | None => df' !! c = None
    | Some s =>
        if bool_decide (c ∈ cs)
        then ∃ s', astype_Int64 (to_numeric pn s) = Ok s' ∧ df' !! c = Some s'
        else df' !! c = Some s
    end.
Proof.
  revert df. induction cs as [|c0 cs IH]; intros df; simpl.
  - intros [= <-] c. destruct (df !! c); done.
  - destruct (df !! c0) as [s0|] eqn:E0.
    + destruct (astype_Int64 (to_numeric pn s0)) as [s0'|e] eqn:Ec; [|done].
      intros Hrec c. specialize (IH _ Hrec c).
      destruct (decide (c = c0)) as [->|Hne].
      * rewrite lookup_insert_eq in IH. rewrite E0.
        rewrite bool_decide_eq_true_2 by apply list_elem_of_here.
        exists s0'. split; [done|]. case_bool_decide.
        -- destruct IH as (s'' & Hs'' & ->).
           rewrite (astype_Int64_again _ _ Ec) in Hs''. congruence.
        -- done.
      * rewrite lookup_insert_ne in IH by done.
        destruct (df !! c) as [s|]; [|done].
        rewrite (bool_decide_ext (c ∈ c0 :: cs) (c ∈ cs)); [done|].
        rewrite elem_of_cons. split; [|auto]. intros [->|]; done.
    + intros Hrec c. specialize (IH _ Hrec c).
      destruct (df !! c) as [s|] eqn:Ec; [|done].
      rewrite (bool_decide_ext (c ∈ c0 :: cs) (c ∈ cs)); [done|].
      rewrite elem_of_cons. split; [|auto]. intros [->|]; [congruence|done].
Qed.

(** ** The Recoder *)

Lemma minimal_recode_Ok df df' :
  minimal_recode pn df = Ok df' ↔
  ∃ df2 f,
    coerce_columns pn (typed_columns ++ helper_columns) df = (df2, None) ∧
    own_ill_flag df2 = Ok f ∧
    df' = <["own_ill_absent" := f]> df2.
Proof.
  unfold minimal_recode, minimal_recode_inplace.
  rewrite coerce_columns_app.
  destruct (coerce_columns pn typed_columns df) as [df1 [e|]].
  { split; [done|]. by intros (? & ? & ? & _). }
  destruct (coerce_columns pn helper_columns df1) as [df2 [e|]].
  { split; [done|]. by intros (? & ? & ? & _). }
  destruct (own_ill_flag df2) as [f|e] eqn:Ef.
  - split.
    + intros [= <-]. eauto.
    + intros (? & ? & [= <-] & Hf & ->). congruence.
  - split; [done|]. intros (? & ? & [= <-] & Hf & _). congruence.
Qed.



(** ** The Period Tagger *)

Lemma num_test_lookup p s i c :
  series_cells s !! i = Some c →
  num_test p (to_numeric pn s) !! i =
    Some (match s with
          | Plain _ => Some (from_option p false (coerce pn c))
          | Int64 _ => p <$> coerce pn c
          end).
Proof.
  destruct s as [l|l]; intros Hc; unfold series_cells, to_numeric, num_test in *.
  - by rewrite !list_lookup_fmap, Hc.
  - rewrite list_lookup_fmap in Hc. rewrite list_lookup_fmap.
    destruct (l !! i) as [[z|]|]; simplify_eq/=; done.
Qed.

Lemma astype_int_lookup b s i ob :
  astype_int b = Ok s → b !! i = Some ob →
  ∃ x, ob = Some x ∧ series_cells s !! i = Some (bool_to_cell x).
Proof.
  intros (l & -> & ->)%astype_int_Ok. simpl. rewrite !list_lookup_fmap.
  destruct (l !! i) as [x|]; simpl; [|done]. intros [= <-]. eauto.
Qed.

Lemma num_test_cases p s i c :
  series_cells s !! i = Some c →
  ∃ o, num_test p (to_numeric pn s) !! i = Some o ∧
       (o = Some (from_option p false (coerce pn c)) ∨
        o = None ∧ coerce pn c = None).
Proof.
  intros Hc. rewrite (num_test_lookup _ _ _ _ Hc). eexists; split; [done|].
  destruct s; [by left|]. destruct (coerce pn c); simpl; auto.
Qed.

Lemma and3_value o1 o2 x A B :
  and3 o1 o2 = Some x →
  o1 = Some A ∨ o1 = None ∧ A = false →
  o2 = Some B ∨ o2 = None ∧ B = false →
  x = A && B.
Proof.
  intros H [->|[-> ->]] [->|[-> ->]]; revert H.
  - rewrite and3_Some. congruence.
  - destruct A; simpl; congruence.
  - destruct B; simpl; congruence.
  - done.
Qed.

Lemma make_periods_Ok df yc df' :
  _make_periods pn df yc = Ok df' ↔
  ∃ s p1 p2 p3,
    df !! yc = Some s ∧
    astype_int (band (ge (to_numeric pn s) 1994) (le (to_numeric pn s) 2007))
      = Ok p1 ∧
    astype_int (band (ge (to_numeric pn s) 2008) (le (to_numeric pn s) 2019))
      = Ok p2 ∧
    astype_int (ge (to_numeric pn s) 2020) = Ok p3 ∧
    df' = <["P3" := p3]> (<["P2" := p2]> (<["P1" := p1]> df)).
Proof.
  unfold _make_periods, getitem. destruct (df !! yc) as [s|]; simpl.
  2:{ split; [done|]. by intros (? & ? & ? & ? & ? & _). }
  destruct (astype_int (band (ge _ 1994) _)) as [p1|] eqn:E1; simpl.
  2:{ split; [done|]. intros (? & ? & ? & ? & [= <-] & ? & _). congruence. }
  destruct (astype_int (band (ge _ 2008) _)) as [p2|] eqn:E2; simpl.
  2:{ split; [done|]. intros (? & ? & ? & ? & [= <-] & ? & ? & _). congruence. }
  destruct (astype_int (ge _ 2020)) as [p3|] eqn:E3; simpl.
  2:{ split; [done|].
      intros (? & ? & ? & ? & [= <-] & ? & ? & ? & _). congruence. }
  split.
  - intros [= <-]. by exists s, p1, p2, p3.
  - intros (? & ? & ? & ? & [= <-] & ? & ? & ? & ->). congruence.
Qed.

(** The three period tests on a year value. *)
Lemma make_periods_row df df' s i c :
  _make_periods pn df "YEAR" = Ok df' →
  df !! "YEAR" = Some s →
  series_cells s !! i = Some c →
  (df' !! "P1") ≫= (λ s, series_cells s !! i) =
    Some (bool_to_cell (from_option (in_P1) false (coerce pn c))) ∧
  (df' !! "P2") ≫= (λ s, series_cells s !! i) =
    Some (bool_to_cell (from_option (in_P2) false (coerce pn c))) ∧
  (df' !! "P3") ≫= (λ s, series_cells s !! i) =
    Some (bool_to_cell (from_option (in_P3) false (coerce pn c))).
Proof.
  intros (s' & p1 & p2 & p3 & Hs' & H1 & H2 & H3 & ->)%make_periods_Ok Hs Hc.
  assert (s' = s) as -> by congruence.
  rewrite lookup_insert_ne, lookup_insert_ne, lookup_insert_eq by done.
  rewrite lookup_insert_ne, lookup_insert_eq by done.
  rewrite lookup_insert_eq. simpl.
  destruct (num_test_cases (λ q, Qle_bool (inject_Z 1994) q) _ _ _ Hc)
    as (a1 & Ha1 & Ca1).
  destruct (num_test_cases (λ q, Qle_bool q (inject_Z 2007)) _ _ _ Hc)
    as (b1 & Hb1 & Cb1).
  destruct (num_test_cases (λ q, Qle_bool (inject_Z 2008) q) _ _ _ Hc)
    as (a2 & Ha2 & Ca2).
  destruct (num_test_cases (λ q, Qle_bool q (inject_Z 2019)) _ _ _ Hc)
    as (b2 & Hb2 & Cb2).
  destruct (num_test_cases (λ q, Qle_bool (inject_Z 2020) q) _ _ _ Hc)
    as (a3 & Ha3 & Ca3).
  assert (∀ o (P : Q → bool),
            o = Some (from_option P false (coerce pn c))
            ∨ o = None ∧ coerce pn c = None →
            o = Some (from_option P false (coerce pn c))
            ∨ o = None ∧ from_option P false (coerce pn c) = false) as Hfix.
  { intros o P [?|[? E]]; [by left|right]. by rewrite E. }
  split; [|split].
  - destruct (astype_int_lookup _ _ i (and3 a1 b1) H1) as (x & Hx & ->).
    { unfold band, ge, le. by rewrite lookup_zip_with, Ha1, Hb1. }
    rewrite (and3_value _ _ _ _ _ Hx (Hfix _ _ Ca1) (Hfix _ _ Cb1)).
    unfold in_P1. by destruct (coerce pn c).
  - destruct (astype_int_lookup _ _ i (and3 a2 b2) H2) as (x & Hx & ->).
    { unfold band, ge, le. by rewrite lookup_zip_with, Ha2, Hb2. }
    rewrite (and3_value _ _ _ _ _ Hx (Hfix _ _ Ca2) (Hfix _ _ Cb2)).
    unfold in_P2. by destruct (coerce pn c).
  - destruct (astype_int_lookup _ _ i a3 H3) as (x & Hx & ->).
    { exact Ha3. }
    unfold in_P3. destruct Ca3 as [->|[-> E]]; [congruence|done].
Qed.

Lemma Qle_bool_inject_l k y z :
  (y == inject_Z z)%Q → Qle_bool (inject_Z k) y = (k <=? z).
Proof.
  intros Hy. apply eq_iff_eq_true.
  rewrite Qle_bool_iff, Z.leb_le, Hy, <- Zle_Qle. done.
Qed.

Lemma Qle_bool_inject_r k y z :
  (y == inject_Z z)%Q → Qle_bool y (inject_Z k) = (z <=? k).
Proof.
  intros Hy. apply eq_iff_eq_true.
  rewrite Qle_bool_iff, Z.leb_le, Hy, <- Zle_Qle. done.
Qed.

Ltac Q_to_Z_order :=
  unfold in_P1, in_P2, in_P3, Qle_bool, Qle, Qlt, Qeq in *; simpl in *;
  repeat match goal with
         | |- context [?a <=? ?b] => destruct (Z.leb_spec a b)
         end; simpl.

(** C2. On every row the Period Tagger produces, P1 = 1 iff the year is
    in [1994,2007], P2 = 1 iff it is in [2008,2019], P3 = 1 iff it is at
    least 2020; for a (whole) year from 1994 on exactly one of the three
    is 1 (2007 gives P1, 2008 gives P2, 2020 gives P3), and for a year
    before 1994 all three are 0. *)
Theorem period_indicators df df' s i c :
  _make_periods pn df "YEAR" = Ok df' →
  df !! "YEAR" = Some s →
  series_cells s !! i = Some c →
  ∃ p1 p2 p3 : Z,
    (df' !! "P1") ≫= (λ s, series_cells s !! i) = Some (Int p1) ∧
    (df' !! "P2") ≫= (λ s, series_cells s !! i) = Some (Int p2) ∧
    (df' !! "P3") ≫= (λ s, series_cells s !! i) = Some (Int p3) ∧
    ∀ y : Q, coerce pn c = Some y →
      (p1 = 1 ↔ (inject_Z 1994 <= y <= inject_Z 2007)%Q) ∧
      (p2 = 1 ↔ (inject_Z 2008 <= y <= inject_Z 2019)%Q) ∧
      (p3 = 1 ↔ (inject_Z 2020 <= y)%Q) ∧
      (is_integral y = true → (inject_Z 1994 <= y)%Q → exactly_one p1 p2 p3) ∧
      ((inject_Z 1994 <= y)%Q →
       ¬ (inject_Z 2007 < y < inject_Z 2008)%Q →
       ¬ (inject_Z 2019 < y < inject_Z 2020)%Q → exactly_one p1 p2 p3) ∧
      ((y == inject_Z 2007)%Q → p1 = 1 ∧ p2 = 0 ∧ p3 = 0) ∧
      ((y == inject_Z 2008)%Q → p1 = 0 ∧ p2 = 1 ∧ p3 = 0) ∧
      ((y == inject_Z 2020)%Q → p3 = 1) ∧
      ((y < inject_Z 1994)%Q → p1 = 0 ∧ p2 = 0 ∧ p3 = 0).
Proof.
  intros Hok Hs Hc.
  destruct (make_periods_row _ _ _ _ _ Hok Hs Hc) as (H1 & H2 & H3).
  eexists _, _, _. split; [exact H1|]. split; [exact H2|]. split; [exact H3|].
  intros y Hy. rewrite Hy. cbn [from_option].
  split; [|split; [|split; [|split; [|split; [|split; [|split; [|split]]]]]]].
  - destruct y as [n d]. Q_to_Z_order; split; (lia || (intros; lia)).
  - destruct y as [n d]. Q_to_Z_order; split; (lia || (intros; lia)).
  - destruct y as [n d]. Q_to_Z_order; split; (lia || (intros; lia)).
  - intros Hint%is_integral_eq Hge. unfold exactly_one, in_P1, in_P2, in_P3.
    rewrite !(Qle_bool_inject_l _ _ _ Hint), !(Qle_bool_inject_r _ _ _ Hint).
    rewrite Hint in Hge. rewrite <- Zle_Qle in Hge.
    repeat match goal with
           | |- context [?a <=? ?b] => destruct (Z.leb_spec a b)
           end; simpl; lia.
  - destruct y as [n d]. unfold exactly_one. intros Hge Hgap1 Hgap2.
    Q_to_Z_order; lia.
  - destruct y as [n d]. Q_to_Z_order; intros; lia.
  - destruct y as [n d]. Q_to_Z_order; intros; lia.
  - destruct y as [n d]. Q_to_Z_order; intros; lia.
  - destruct y as [n d]. Q_to_Z_order; intros; lia.
Qed.

(** ** Columns without nulls *)

Lemma band_Some a b : band (Some <$> a) (Some <$> b) = Some <$> zip_with andb a b.
Proof.
  unfold band. revert b. induction a as [|x a IH]; intros [|y b]; simpl; try done.
  rewrite IH. by destruct x, y.
Qed.

Lemma bor_Some a b : bor (Some <$> a) (Some <$> b) = Some <$> zip_with orb a b.
Proof.
  unfold bor. revert b. induction a as [|x a IH]; intros [|y b]; simpl; try done.
  rewrite IH. by destruct x, y.
Qed.

Lemma astype_int_Some l : astype_int (Some <$> l) = Ok (Plain (bool_to_cell <$> l)).
Proof. apply astype_int_Ok. eauto. Qed.

Lemma to_bools_Some l : to_bools (Some <$> l) = Ok l.
Proof. by apply to_bools_Ok. Qed.

Lemma num_test_filled p s :
  num_test p (fillna0 (to_numeric pn s)) =
  Some <$> ((λ c, p (filled pn c)) <$> series_cells s).
Proof.
  destruct s as [l|l]; simpl; rewrite <- !list_fmap_compose;
    apply list_fmap_ext; intros i x _; simpl; [done|].
  by destruct x.
Qed.

Lemma isin_filled ks s :
  isin (fillna0 (to_numeric pn s)) ks =
  Some <$> ((λ c, in_codes ks (filled pn c)) <$> series_cells s).
Proof.
  destruct s as [l|l]; simpl; rewrite <- !list_fmap_compose;
    apply list_fmap_ext; intros i x _; simpl; [done|].
  by destruct x.
Qed.

Lemma num_test_plain p l :
  num_test p (to_numeric pn (Plain l)) =
  Some <$> ((λ c, from_option p false (coerce pn c)) <$> l).
Proof. simpl. by rewrite <- !list_fmap_compose. Qed.

Lemma negb_Qle_bool_lt q k :
  negb (Qle_bool q (inject_Z k)) = true ↔ (inject_Z k < q)%Q.
Proof.
  destruct q as [n d]. unfold Qle_bool, Qlt; simpl.
  destruct (Z.leb_spec (n * 1) (k * Z.pos d)); simpl; split; (done || lia).
Qed.

(** ** The Parent Classifier *)

(** The two flag columns as functions of the four input columns. *)
Lemma make_parent_flags_columns df nch mom pop nc5 :
  df !! "NCHILD" = Some nch →
  df !! "MOMLOC" = Some mom →
  df !! "POPLOC" = Some pop →
  df !! "NCHLT5" = Some nc5 →
  make_parent_flags pn df =
    Ok (<["has_child_u5" :=
            Plain (bool_to_cell <$>
                   ((λ c, negb (Qle_bool (filled pn c) (inject_Z 0)))
                      <$> series_cells nc5))]>
        (<["is_parent" :=
             Plain (bool_to_cell <$>
                    zip_with orb
                      (zip_with orb
                         ((λ c, negb (Qle_bool (filled pn c) (inject_Z 0)))
                            <$> series_cells nch)
                         ((λ c, negb (Qle_bool (filled pn c) (inject_Z 0)))
                            <$> series_cells mom))
                      ((λ c, negb (Qle_bool (filled pn c) (inject_Z 0)))
                         <$> series_cells pop))]> df)).
Proof.
  intros Hn Hm Hp H5. unfold make_parent_flags, get_filled, gt.
  rewrite Hn, Hm, Hp, H5. cbn [mbind res_bind].
  rewrite !num_test_filled, !bor_Some, !astype_int_Some. done.
Qed.

Lemma make_parent_flags_Ok df df' :
  make_parent_flags pn df = Ok df' →
  ∃ nch mom pop nc5,
    df !! "NCHILD" = Some nch ∧ df !! "MOMLOC" = Some mom ∧
    df !! "POPLOC" = Some pop ∧ df !! "NCHLT5" = Some nc5.
Proof.
  unfold make_parent_flags, get_filled.
  destruct (df !! "NCHILD") as [nch|]; [|done].
  destruct (df !! "MOMLOC") as [mom|]; [|done].
  destruct (df !! "POPLOC") as [pop|]; [|done].
  destruct (df !! "NCHLT5") as [nc5|]; [|done].
  intros _. by exists nch, mom, pop, nc5.
Qed.

(** C4. For every record the Parent Classifier processes, is_parent is 1
    iff NCHILD > 0 or MOMLOC > 0 or POPLOC > 0, and has_child_u5 is 1 iff
    NCHLT5 > 0, each cell counting as 0 when it is missing or
    unparseable; in particular NCHILD > 0 alone makes is_parent 1. *)
Theorem parent_flags_rule df nch mom pop nc5 i cn cm cp c5 :
  df !! "NCHILD" = Some nch →
  df !! "MOMLOC" = Some mom →
  df !! "POPLOC" = Some pop →
  df !! "NCHLT5" = Some nc5 →
  series_cells nch !! i = Some cn →
  series_cells mom !! i = Some cm →
  series_cells pop !! i = Some cp →
  series_cells nc5 !! i = Some c5 →
  ∃ df' (f g : Z),
    make_parent_flags pn df = Ok df' ∧
    (df' !! "is_parent") ≫= (λ s, series_cells s !! i) = Some (Int f) ∧
    (df' !! "has_child_u5") ≫= (λ s, series_cells s !! i) = Some (Int g) ∧
    (f = 0 ∨ f = 1) ∧ (g = 0 ∨ g = 1) ∧
    (f = 1 ↔ (0 < filled pn cn ∨ 0 < filled pn cm ∨ 0 < filled pn cp)%Q) ∧
    (g = 1 ↔ (0 < filled pn c5)%Q) ∧
    ((0 < filled pn cn)%Q → f = 1).
Proof.
  intros Hn Hm Hp H5 Hcn Hcm Hcp Hc5.
  rewrite (make_parent_flags_columns _ _ _ _ _ Hn Hm Hp H5).
  set (pos := λ c, negb (Qle_bool (filled pn c) (inject_Z 0))).
  eexists _, (if pos cn || pos cm || pos cp then 1 else 0),
    (if pos c5 then 1 else 0).
  split; [done|].
  rewrite lookup_insert_ne, !lookup_insert_eq by done. simpl.
  rewrite !list_lookup_fmap, !lookup_zip_with, !list_lookup_fmap.
  rewrite Hcn, Hcm, Hcp, Hc5. simpl.
  split; [done|]. split; [done|].
  assert (∀ c, pos c = true ↔ (0 < filled pn c)%Q) as Hpos.
  { intros c. apply (negb_Qle_bool_lt _ 0). }
  split; [destruct (pos cn), (pos cm), (pos cp); auto|].
  split; [destruct (pos c5); auto|].
  rewrite <- !Hpos. split; [|split].
  - rewrite <- !orb_true_iff, orb_assoc.
    destruct (pos cn), (pos cm), (pos cp); simpl; split; (done || lia).
  - destruct (pos c5); split; (done || lia).
  - intros ->. done.
Qed.

(** ** Running a component on its own output *)

Lemma coerce_columns_fixed cs df :
  (∀ c s, c ∈ cs → df !! c = Some s →
          astype_Int64 (to_numeric pn s) = Ok s) →
  coerce_columns pn cs df = (df, None).
Proof.
  induction cs as [|c cs IH]; intros Hfix; simpl; [done|].
  destruct (df !! c) as [s|] eqn:E.
  - rewrite (Hfix c s) by (done || apply list_elem_of_here).
    rewrite insert_id by done. apply IH. intros c' s' Hc'. apply Hfix.
    by apply list_elem_of_further.
  - apply IH. intros c' s' Hc'. apply Hfix. by apply list_elem_of_further.
Qed.

Lemma minimal_recode_again df df1 :
  minimal_recode pn df = Ok df1 → minimal_recode pn df1 = Ok df1.
Proof.
  intros (df2 & f & Hloop & Hf & ->)%minimal_recode_Ok.
  apply minimal_recode_Ok. exists (<["own_ill_absent" := f]> df2), f.
  split; [|split].
  - apply coerce_columns_fixed. intros c s Hc.
    assert (c ≠ "own_ill_absent") as Hne.
    { intros ->. apply list_elem_of_In in Hc. simpl in Hc.
      repeat destruct Hc as [Hc|Hc]; done. }
    rewrite lookup_insert_ne by done. intros Hs.
    pose proof (coerce_columns_lookup _ _ _ Hloop c) as Hl.
    destruct (df !! c) as [s0|]; [|congruence].
    rewrite bool_decide_eq_true_2 in Hl by done.
    destruct Hl as (s' & Hs' & Hl). assert (s' = s) as -> by congruence.
    by eapply astype_Int64_again.
  - revert Hf. unfold own_ill_flag, getitem.
    by rewrite !lookup_insert_ne by done.
  - by rewrite insert_insert_eq.
Qed.

Lemma make_parent_flags_again df df1 :
  make_parent_flags pn df = Ok df1 → make_parent_flags pn df1 = Ok df1.
Proof.
  intros Hok.
  destruct (make_parent_flags_Ok _ _ Hok) as (nch & mom & pop & nc5 & Hn & Hm & Hp & H5).
  rewrite (make_parent_flags_columns _ _ _ _ _ Hn Hm Hp H5) in Hok.
  injection Hok as <-.
  rewrite (make_parent_flags_columns _ nch mom pop nc5)
    by (by rewrite !lookup_insert_ne by done).
  f_equal. apply map_eq. intros k.
  destruct (decide (k = "has_child_u5")) as [->|Hu].
  { by rewrite !lookup_insert_eq. }
  destruct (decide (k = "is_parent")) as [->|Hi].
  { rewrite !(lookup_insert_ne _ "has_child_u5") by done.
    by rewrite !lookup_insert_eq. }
  by rewrite !lookup_insert_ne by done.
Qed.

(** C7. Re-running the Recoder, or the Parent Classifier, on its own
    output gives that output back, so the flags own_ill_absent,
    is_parent and has_child_u5 already derived keep their values. *)
Theorem derived_flags_idempotent df df1 :
  (minimal_recode pn df = Ok df1 →
   ∃ df2, minimal_recode pn df1 = Ok df2 ∧ df2 = df1 ∧
          df2 !! "own_ill_absent" = df1 !! "own_ill_absent") ∧
  (make_parent_flags pn df = Ok df1 →
   ∃ df2, make_parent_flags pn df1 = Ok df2 ∧ df2 = df1 ∧
          df2 !! "is_parent" = df1 !! "is_parent" ∧
          df2 !! "has_child_u5" = df1 !! "has_child_u5").
Proof.
  split; intros H; exists df1.
  - by rewrite (minimal_recode_again _ _ H).
  - by rewrite (make_parent_flags_again _ _ H).
Qed.

(** ** Where the Period Tagger returns and where it raises *)

Lemma astype_int_Err b e : astype_int b = Err e → e = ValueError.
Proof.
  unfold astype_int, to_bools. destruct (mapM id b); simpl; congruence.
Qed.

Lemma astype_int_NA b i : b !! i = Some None → astype_int b = Err ValueError.
Proof.
  intros Hi. destruct (astype_int b) as [s|e] eqn:E.
  - apply astype_int_Ok in E as (l & -> & _).
    rewrite list_lookup_fmap in Hi. by destruct (l !! i).
  - by rewrite (astype_int_Err _ _ E).
Qed.

(** On a numpy-backed year column the Period Tagger returns; a null or
    unparseable year then has P1 = P2 = P3 = 0 (see [make_periods_row]). *)
Lemma make_periods_plain df l :
  df !! "YEAR" = Some (Plain l) → ∃ df', _make_periods pn df "YEAR" = Ok df'.
Proof.
  intros Hy. unfold _make_periods, getitem, ge, le. rewrite Hy.
  cbn [mbind res_bind]. rewrite !num_test_plain, !band_Some, !astype_int_Some.
  cbn [mbind res_bind]. eauto.
Qed.

Lemma make_periods_plain_null df df' l i c :
  df !! "YEAR" = Some (Plain l) →
  _make_periods pn df "YEAR" = Ok df' →
  l !! i = Some c → coerce pn c = None →
  (df' !! "P1") ≫= (λ s, series_cells s !! i) = Some (Int 0) ∧
  (df' !! "P2") ≫= (λ s, series_cells s !! i) = Some (Int 0) ∧
  (df' !! "P3") ≫= (λ s, series_cells s !! i) = Some (Int 0).
Proof.
  intros Hy Hok Hc Hnull.
  destruct (make_periods_row _ _ (Plain l) i c Hok Hy Hc) as (H1 & H2 & H3).
  rewrite H1, H2, H3, Hnull. repeat split; reflexivity.
Qed.

(** On a nullable [Int64] year column one <NA> is enough to make the
    Period Tagger raise. *)
Lemma make_periods_masked_NA df l i :
  df !! "YEAR" = Some (Int64 l) → l !! i = Some None →
  _make_periods pn df "YEAR" = Err ValueError.
Proof.
  intros Hy Hi. unfold _make_periods, getitem. rewrite Hy.
  cbn [mbind res_bind].
  rewrite (astype_int_NA (band (ge _ 1994) _) i); [reflexivity|].
  unfold band, ge, le, num_test; simpl.
  by rewrite lookup_zip_with, !list_lookup_fmap, Hi.
Qed.

(** ** Tables as shared objects *)

(** [minimal_recode] hands back the reference it was given, and the
    table behind it is now the recoded one. *)
Lemma minimal_recode_ref_alias r h h' r' :
  minimal_recode_ref pn r h = Some (h', Ok r') →
  r' = r ∧ ∃ df df', h !! r = Some df ∧ minimal_recode pn df = Ok df' ∧
                     h' !! r = Some df'.
Proof.
  unfold minimal_recode_ref, minimal_recode.
  destruct (h !! r) as [df|]; simpl; [|done].
  destruct (minimal_recode_inplace pn df) as [df' [e|]] eqn:E; simpl; [done|].
  intros [= <- <-]. split; [done|]. exists df, df'.
  split; [done|]. split; [by rewrite E|]. apply lookup_insert_eq.
Qed.

(** [make_parent_flags] hands back a new table and leaves every table
    that existed before the call as it was. *)
Lemma make_parent_flags_ref_fresh r h h' r' :
  make_parent_flags_ref pn r h = Some (h', Ok r') →
  h !! r' = None ∧ (∀ r0, is_Some (h !! r0) → h' !! r0 = h !! r0) ∧
  ∃ df df', h !! r = Some df ∧ make_parent_flags pn df = Ok df' ∧
            h' !! r' = Some df'.
Proof.
  unfold make_parent_flags_ref. destruct (h !! r) as [df|] eqn:E; simpl; [|done].
  destruct (make_parent_flags pn df) as [df'|e] eqn:Ef; [|done].
  intros [= <- <-].
  assert (h !! fresh (dom h) = None) as Hfresh.
  { apply not_elem_of_dom. apply is_fresh. }
  split; [done|]. split.
  - intros r0 [x Hx]. rewrite lookup_insert_ne; [done|]. congruence.
  - exists df, df'. split; [done|]. split; [done|]. apply lookup_insert_eq.
Qed.

(** ** The Rate Aggregator, row by row *)

Lemma eligible_mask_cells (obs : list observation) :
  zip_with andb
    ((λ c, in_codes employed_codes (filled pn c)) <$> (o_emp <$> obs))
    (zip_with andb
       ((λ c, Qle_bool (inject_Z 25) (filled pn c)) <$> (o_age <$> obs))
       ((λ c, Qle_bool (filled pn c) (inject_Z 49)) <$> (o_age <$> obs)))
  = eligible pn <$> obs.
Proof.
  induction obs as [|o obs IH]; [done|].
  cbn [fmap list_fmap zip_with]. f_equal. exact IH.
Qed.

Lemma eligibility_mask_rows df obs :
  has_rows df obs → eligibility_mask pn df = Ok (eligible pn <$> obs).
Proof.
  intros (se & sa & sy & sm & sp & sv & He & Ha & _ & _ & _ & _
          & Ce & Ca & _).
  unfold eligibility_mask, get_filled, between, ge, le. rewrite He, Ha.
  cbn [mbind res_bind].
  rewrite isin_filled, !num_test_filled, !band_Some, to_bools_Some.
  by rewrite Ce, Ca, eligible_mask_cells.
Qed.

Lemma keyed_rows_rows (obs : list observation) sy sm sp sv :
  series_cells sy = o_year <$> obs →
  series_cells sm = o_month <$> obs →
  series_cells sp = o_parent <$> obs →
  series_cells sv = o_ill <$> obs →
  keyed_rows (eligible pn <$> obs) sy sm sp sv =
  omap obs_row (filter (λ o, eligible pn o = true) obs).
Proof.
  intros Cy Cm Cp Cv. unfold keyed_rows, loc_mask.
  rewrite Cy, Cm, Cp, Cv. clear.
  induction obs as [|o obs IH]; [done|].
  cbn [fmap list_fmap zip_with]. rewrite !filter_cons. cbn [snd].
  destruct (eligible pn o); simpl.
  - unfold obs_row at 1.
    destruct (row_key _ _ _); simpl; [f_equal|]; exact IH.
  - exact IH.
Qed.

Lemma aggregate_rows df obs :
  has_rows df obs →
  _aggregate_monthly_rates pn pi df =
  summarise pi (omap obs_row (filter (λ o, eligible pn o = true) obs)).
Proof.
  intros Hrows. unfold _aggregate_monthly_rates.
  rewrite (eligibility_mask_rows _ _ Hrows).
  destruct Hrows as (se & sa & sy & sm & sp & sv & _ & _ & Hy & Hm & Hp & Hv
                     & _ & _ & Cy & Cm & Cp & Cv).
  unfold getitem. rewrite Hy, Hm, Hp, Hv. cbn [mbind res_bind].
  by rewrite (keyed_rows_rows obs).
Qed.

Lemma fmap_delete_list {A B} (f : A → B) (l : list A) i :
  f <$> delete i l = delete i (f <$> l).
Proof.
  revert i. induction l as [|x l IH]; intros [|i]; simpl; try done.
  by rewrite IH.
Qed.

Lemma series_cells_delete i s :
  series_cells (series_delete i s) = delete i (series_cells s).
Proof. destruct s; simpl; [done|]. apply fmap_delete_list. Qed.

Lemma has_rows_drop_row df obs i :
  has_rows df obs → has_rows (drop_row i df) (delete i obs).
Proof.
  intros (se & sa & sy & sm & sp & sv & He & Ha & Hy & Hm & Hp & Hv
          & Ce & Ca & Cy & Cm & Cp & Cv).
  exists (series_delete i se), (series_delete i sa), (series_delete i sy),
    (series_delete i sm), (series_delete i sp), (series_delete i sv).
  unfold drop_row. rewrite !lookup_fmap, He, Ha, Hy, Hm, Hp, Hv.
  rewrite !series_cells_delete, Ce, Ca, Cy, Cm, Cp, Cv, !fmap_delete_list.
  done.
Qed.

Lemma aggregate_without_row df df' obs1 o obs2 :
  has_rows df (obs1 ++ o :: obs2) →
  has_rows df' (obs1 ++ obs2) →
  eligible pn o = false →
  _aggregate_monthly_rates pn pi df = _aggregate_monthly_rates pn pi df'.
Proof.
  intros Hdf Hdf' Hel.
  rewrite (aggregate_rows _ _ Hdf), (aggregate_rows _ _ Hdf').
  rewrite !filter_app, filter_cons_False; [done|]. by rewrite Hel.
Qed.

(** C10. A row whose EMPSTAT or AGE cell is missing or unparseable
    counts as 0 in that field, fails the eligibility filter, and does not
    contribute to the output: the table without that row gives the same
    result. *)
Theorem ineligible_row_ignored df obs1 o obs2 :
  has_rows df (obs1 ++ o :: obs2) →
  coerce pn (o_emp o) = None ∨ coerce pn (o_age o) = None →
  (coerce pn (o_emp o) = None → filled pn (o_emp o) = 0%Q) ∧
  (coerce pn (o_age o) = None → filled pn (o_age o) = 0%Q) ∧
  in_codes employed_codes 0%Q = false ∧
  Qle_bool (inject_Z 25) 0%Q = false ∧
  eligible pn o = false ∧
  (∃ mask, eligibility_mask pn df = Ok mask ∧
           mask !! length obs1 = Some false) ∧
  has_rows (drop_row (length obs1) df) (obs1 ++ obs2) ∧
  _aggregate_monthly_rates pn pi df =
  _aggregate_monthly_rates pn pi (drop_row (length obs1) df).
Proof.
  intros Hdf Hbad.
  assert (eligible pn o = false) as Hel.
  { unfold eligible, filled.
    destruct Hbad as [-> | ->]; simpl; [done|]. apply andb_false_r. }
  assert (has_rows (drop_row (length obs1) df) (obs1 ++ obs2)) as Hdf'.
  { rewrite <- (delete_middle obs1 obs2 o). by apply has_rows_drop_row. }
  split; [by unfold filled; intros ->|]. split; [by unfold filled; intros ->|].
  split; [done|]. split; [done|]. split; [done|]. split; [|split; [done|]].
  - rewrite (eligibility_mask_rows _ _ Hdf). eexists; split; [done|].
    rewrite list_lookup_fmap, list_lookup_middle by done. simpl. by rewrite Hel.
  - by apply (aggregate_without_row _ _ obs1 o obs2).
Qed.

(** ** Grouping and averaging *)

Lemma mapM_res_Ok {A B} (f : A → res B) (g : A → B) (l : list A) :
  (∀ x, x ∈ l → f x = Ok (g x)) → mapM f l = Ok (g <$> l).
Proof.
  induction l as [|x l IH]; intros Hf; simpl; [done|].
  rewrite (Hf x) by apply list_elem_of_here. simpl.
  rewrite IH; [done|]. intros y Hy. apply Hf. by apply list_elem_of_further.
Qed.



Lemma group_keys_elem rows k : k ∈ group_keys rows ↔ k ∈ fst <$> rows.
Proof.
  unfold group_keys. rewrite merge_sort_Permutation. apply elem_of_remove_dups.
Qed.


Lemma mean_ints vs :
  vs ≠ [] → Forall (λ c, ∃ z, c = Int z) vs →
  mean vs = Ok (Float (rate_value vs)).
Proof.
  intros Hne Hint. unfold mean, rate_value.
  replace (existsb is_text vs) with false.
  2:{ symmetry. apply not_true_is_false. intros Ht.
      apply existsb_exists in Ht as (c & Hc & Htext).
      apply list_elem_of_In in Hc.
      rewrite Forall_forall in Hint. destruct (Hint c Hc) as [z ->]. done. }
  destruct vs as [|c vs]; [done|].
  apply Forall_cons in Hint as [[z ->] _]. done.
Qed.

Lemma key_int_KNum q : key_int pi (KNum q) = Ok (key_z (KNum q)).
Proof. reflexivity. Qed.

Lemma key3_ints_zkey t : key3_ints (zkey t) = t.
Proof.
  destruct t as [[y m] p]. unfold key3_ints, zkey, key_z, trunc; simpl.
  by rewrite !Z.quot_1_r.
Qed.


Lemma summarise_int_keys rows :
  (∀ r, r ∈ rows → ∃ t z, r = (zkey t, Int z)) →
  summarise pi rows =
  Ok (rate_table (key3_ints <$> group_keys rows)
        ((λ k, Float (rate_value (group_values rows k))) <$> group_keys rows)).
Proof.
  intros Hrows. unfold summarise.
  assert (∀ k, k ∈ group_keys rows → ∃ t, k = zkey t) as Hk.
  { intros k (r & -> & Hr)%group_keys_elem%list_elem_of_fmap.
    destruct (Hrows r Hr) as (t & z & ->). eauto. }
  rewrite (mapM_res_Ok _ (λ k, Float (rate_value (group_values rows k)))).
  2:{ intros k Hin. apply mean_ints.
      - apply group_keys_elem, list_elem_of_fmap in Hin as (r & -> & Hr).
        unfold group_values. intros Hnil%fmap_nil_inv.
        assert (r ∈ filter (λ r0 : key3 * cell, r0.1 = r.1) rows) as Hf
          by by apply list_elem_of_filter.
        rewrite Hnil in Hf. by apply not_elem_of_nil in Hf.
      - unfold group_values. apply Forall_fmap, Forall_forall.
        intros r [_ Hr]%list_elem_of_filter.
        destruct (Hrows r Hr) as (t & z & ->). simpl. eauto. }
  cbn [mbind res_bind].
  rewrite (mapM_res_Ok (λ k : key3, key_int pi k.1.1)
             (λ k : key3, (key3_ints k).1.1)).
  2:{ intros k [t ->]%Hk. reflexivity. }
  cbn [mbind res_bind].
  rewrite (mapM_res_Ok (λ k : key3, key_int pi k.1.2)
             (λ k : key3, (key3_ints k).1.2)).
  2:{ intros k [t ->]%Hk. reflexivity. }
  cbn [mbind res_bind].
  rewrite (mapM_res_Ok (λ k : key3, key_int pi k.2)
             (λ k : key3, (key3_ints k).2)).
  2:{ intros k [t ->]%Hk. reflexivity. }
  cbn [mbind res_bind]. unfold rate_table.
  by rewrite <- !(list_fmap_compose key3_ints).
Qed.

(** ** Flagged observations *)


Lemma obs_row_flagged o r :
  flagged o → obs_row o = Some r →
  ∃ y m p z, o_year o = Int y ∧ o_month o = Int m ∧ o_parent o = Int p ∧
             o_ill o = Int z ∧ (z = 0 ∨ z = 1) ∧ r = (zkey (y, m, p), Int z).
Proof.
  intros (Hy & Hm & Hp & Hv). unfold obs_row, row_key.
  destruct Hy as [->|[y ->]]; [done|]. destruct Hm as [->|[m ->]]; [done|].
  assert (∃ p, o_parent o = Int p) as [p Ep] by (destruct Hp; eauto).
  assert (∃ z, o_ill o = Int z ∧ (z = 0 ∨ z = 1)) as (z & Ez & Hz).
  { destruct Hv as [E|E]; rewrite E; eauto. }
  rewrite Ep, Ez. simpl. intros [= <-]. by exists y, m, p, z.
Qed.





Lemma eligible_iff o :
  eligible pn o = true ↔
  ((filled pn (o_emp o) == inject_Z 10)%Q ∨ (filled pn (o_emp o) == inject_Z 12)%Q)
  ∧ (inject_Z 25 <= filled pn (o_age o) <= inject_Z 49)%Q.
Proof.
  unfold eligible, in_codes, employed_codes; simpl.
  rewrite !andb_true_iff, !orb_true_iff, !Qeq_bool_iff, !Qle_bool_iff.
  intuition discriminate.
Qed.

Lemma rows_of_flagged (obs : list observation) r :
  Forall flagged obs →
  r ∈ omap obs_row (filter (λ o, eligible pn o = true) obs) →
  ∃ o y m p z, o ∈ obs ∧ in_group pn y m p o ∧ r = (zkey (y, m, p), Int z).
Proof.
  intros Hfl (o & [Hel Ho]%list_elem_of_filter & Hr)%list_elem_of_omap.
  rewrite Forall_forall in Hfl.
  destruct (obs_row_flagged _ _ (Hfl o Ho) Hr)
    as (y & m & p & z & Ey & Em & Ep & _ & _ & ->).
  exists o, y, m, p, z. by repeat split.
Qed.

Lemma masked_cells_int_or_null l : Forall int_or_null (series_cells (Int64 l)).
Proof.
  simpl. apply Forall_fmap, Forall_forall. intros [z|] _; simpl.
  - right. eauto.
  - by left.
Qed.

Lemma bool_cells_flags (bs : list bool) : Forall is_flag (bool_to_cell <$> bs).
Proof.
  apply Forall_fmap, Forall_forall. intros b _. apply bool_to_cell_cases.
Qed.

(** The tables the Rate Aggregator receives are flagged: what the
    Recoder followed by the Parent Classifier returns has whole or null
    years and months and 0/1 flags. *)
Lemma pipeline_flagged df df1 df2 obs :
  minimal_recode pn df = Ok df1 →
  make_parent_flags pn df1 = Ok df2 →
  has_rows df2 obs →
  Forall flagged obs.
Proof.
  intros (dfc & f & Hloop & Hf & ->)%minimal_recode_Ok Hflags.
  destruct (make_parent_flags_Ok _ _ Hflags)
    as (nch & mom & pop & nc5 & Hn & Hm & Hp & H5).
  rewrite (make_parent_flags_columns _ _ _ _ _ Hn Hm Hp H5) in Hflags.
  injection Hflags as <-.
  intros (se & sa & sy & sm & sp & sv & _ & _ & Hy & Hmo & Hpa & Hv
          & _ & _ & Cy & Cm & Cp & Cv).
  rewrite !lookup_insert_ne in Hy by done.
  rewrite !lookup_insert_ne in Hmo by done.
  rewrite lookup_insert_ne, lookup_insert_eq in Hpa by done.
  rewrite !lookup_insert_ne, lookup_insert_eq in Hv by done.
  injection Hpa as <-. injection Hv as <-.
  assert (∀ c s, c ∈ (typed_columns ++ helper_columns)%list →
                 dfc !! c = Some s → Forall int_or_null (series_cells s))
    as Hcoerced.
  { intros c s Hc Hs. pose proof (coerce_columns_lookup _ _ _ Hloop c) as Hl.
    destruct (df !! c) as [s0|]; [|congruence].
    rewrite bool_decide_eq_true_2 in Hl by done.
    destruct Hl as (s' & (l & -> & _)%astype_Int64_cells & Hl).
    assert (s = Int64 l) as -> by congruence.
    apply masked_cells_int_or_null. }
  assert (Forall int_or_null (o_year <$> obs)) as Fy.
  { rewrite <- Cy. apply (Hcoerced "YEAR"); [|done].
    apply list_elem_of_In; simpl; auto 20. }
  assert (Forall int_or_null (o_month <$> obs)) as Fm.
  { rewrite <- Cm. apply (Hcoerced "MONTH"); [|done].
    apply list_elem_of_In; simpl; auto 20. }
  assert (Forall is_flag (o_parent <$> obs)) as Fp.
  { rewrite <- Cp. apply bool_cells_flags. }
  assert (Forall is_flag (o_ill <$> obs)) as Fv.
  { rewrite <- Cv. unfold own_ill_flag in Hf.
    destruct (getitem dfc "ABSENT") as [a|]; [|done].
    destruct (getitem dfc "WHYABSNT") as [w|]; [|done].
    apply astype_int_Ok in Hf as (l & _ & ->). apply bool_cells_flags. }
  rewrite Forall_fmap in Fy, Fm, Fp, Fv.
  rewrite Forall_forall in Fy, Fm, Fp, Fv |- *.
  intros o Ho. repeat split; [apply Fy|apply Fm|apply Fp|apply Fv]; done.
Qed.


(** ** The Group-Rate OLS *)

Lemma int_cells_masked (l : list (option Z)) (ys : list Z) :
  from_option Int Null <$> l = Int <$> ys → l = Some <$> ys.
Proof.
  revert ys. induction l as [|o l IH]; intros [|y ys]; simpl; try done.
  intros [= Ho Hl]. rewrite (IH _ Hl). destruct o; simplify_eq/=. done.
Qed.

Lemma num_test_ints p s (ys : list Z) :
  series_cells s = Int <$> ys →
  num_test p (to_numeric pn s) = Some <$> ((λ y, p (inject_Z y)) <$> ys).
Proof.
  destruct s as [l|l]; simpl; intros Hl.
  - rewrite Hl, <- !list_fmap_compose. done.
  - rewrite (int_cells_masked _ _ Hl), <- !list_fmap_compose. done.
Qed.

Lemma make_periods_ints df s (ys : list Z) :
  df !! "YEAR" = Some s → series_cells s = Int <$> ys →
  ∃ df', _make_periods pn df "YEAR" = Ok df'.
Proof.
  intros Hy Hs. unfold _make_periods, getitem, ge, le. rewrite Hy.
  cbn [mbind res_bind].
  rewrite !(num_test_ints _ _ _ Hs), !band_Some, !astype_int_Some.
  cbn [mbind res_bind]. eauto.
Qed.

Lemma series_astype_int_ints s (ys : list Z) :
  series_cells s = Int <$> ys → series_astype_int pi s = Ok ys.
Proof.
  unfold series_astype_int. intros ->.
  induction ys as [|y ys IH]; [done|].
  cbn [fmap list_fmap mapM]. cbn [cell_int mbind res_bind].
  change (list_fmap Z cell Int ys) with (Int <$> ys). by rewrite IH.
Qed.



(** ** When the Recoder fails *)

Lemma castable_exact q :
  is_integral q = true →
  Qle_bool (inject_Z (- 2 ^ 53)) q && Qle_bool q (inject_Z (2 ^ 53)) = true →
  castable q = true.
Proof.
  intros Hint [Hlo Hhi]%andb_true_iff. unfold castable. rewrite Hint.
  apply Qle_bool_iff in Hlo, Hhi.
  rewrite (is_integral_eq q Hint) in Hlo, Hhi.
  rewrite <- Zle_Qle in Hlo, Hhi. unfold in_int64. cbn [andb].
  apply andb_true_iff. rewrite Z.leb_le, Z.ltb_lt. lia.
Qed.





(** ** What the Recoder does with bad cells and absent columns *)



Lemma minimal_recode_inplace_loop df :
  minimal_recode_inplace pn df =
  match coerce_columns pn recoder_columns df with
  | (df2, Some e) => (df2, Some e)
  | (df2, None) =>
      match own_ill_flag df2 with
      | Ok f => (<["own_ill_absent" := f]> df2, None)
      | Err e => (df2, Some e)
      end
  end.
Proof.
  unfold minimal_recode_inplace, recoder_columns. rewrite coerce_columns_app.
  destruct (coerce_columns pn typed_columns df) as [df1 [e|]]; [done|].
  by destruct (coerce_columns pn helper_columns df1) as [df2 [e|]].
Qed.

Lemma coerce_columns_Err cs df df' e :
  coerce_columns pn cs df = (df', Some e) → e = TypeError.
Proof.
  revert df. induction cs as [|c cs IH]; intros df; simpl; [done|].
  destruct (df !! c) as [s|]; [|apply IH].
  destruct s as [l|l]; simpl; [|apply IH].
  destruct (forallb _ _); [apply IH|]. by intros [= <- <-].
Qed.

Lemma forallb_fmap {A B} (f : B → bool) (g : A → B) (l : list A) :
  forallb f (g <$> l) = forallb (λ x, f (g x)) l.
Proof. induction l as [|x l IH]; simpl; [done|]. f_equal. exact IH. Qed.

(** Within the exact range the cast fails on a column exactly when the
    column holds a number with a fractional part. *)
Lemma cast_fails_iff s :
  exact_series pn s = true →
  (∃ e, astype_Int64 (to_numeric pn s) = Err e) ↔ whole_series pn s = false.
Proof.
  unfold whole_series, exact_series. destruct s as [l|l];
    cbn [to_numeric astype_Int64 series_cells]; intros Hex.
  - rewrite forallb_fmap.
    assert (forallb (λ x, from_option castable true (coerce pn x)) l
            = forallb (whole_cell pn) l) as ->.
    { induction l as [|c l IH]; [done|]. cbn [forallb] in Hex |- *.
      apply andb_true_iff in Hex as [Hc Hl]. rewrite (IH Hl). f_equal.
      unfold whole_cell. unfold exact_cell in Hc.
      destruct (coerce pn c) as [q|]; cbn [from_option] in Hc |- *; [|done].
      destruct (is_integral q) eqn:Hint; [by apply castable_exact|].
      unfold castable. by rewrite Hint. }
    destruct (forallb (whole_cell pn) l).
    + split; [by intros [e ?]|done].
    + split; [done|eauto].
  - split; [by intros [e ?]|]. intros Hw. exfalso.
    apply not_true_iff_false in Hw. apply Hw. apply forallb_forall.
    intros c (o & -> & _)%list_elem_of_In%list_elem_of_fmap.
    unfold whole_cell. destruct o as [z|]; simpl;
      [apply is_integral_inject_Z|done].
Qed.

Lemma coerce_columns_fails cs df :
  (∃ df' e, coerce_columns pn cs df = (df', Some e)) ↔
  ∃ c s, c ∈ cs ∧ df !! c = Some s ∧
         ∃ e, astype_Int64 (to_numeric pn s) = Err e.
Proof.
  revert df. induction cs as [|c0 cs IH]; intros df; simpl.
  { split; [by intros (? & ? & ?)|]. by intros (c & s & ?%not_elem_of_nil & _). }
  destruct (df !! c0) as [s0|] eqn:E0.
  - destruct (astype_Int64 (to_numeric pn s0)) as [s0'|e0] eqn:Ec.
    + rewrite IH. split.
      * intros (c & s & Hc & Hs & e & He). exists c, s.
        destruct (decide (c = c0)) as [->|Hne].
        -- rewrite lookup_insert_eq in Hs. injection Hs as <-.
           rewrite (astype_Int64_again _ _ Ec) in He. done.
        -- rewrite lookup_insert_ne in Hs by done.
           split; [by apply list_elem_of_further|eauto].
      * intros (c & s & Hc & Hs & e & He). exists c, s.
        destruct (decide (c = c0)) as [->|Hne].
        -- assert (s = s0) as -> by congruence. congruence.
        -- rewrite lookup_insert_ne by done.
           apply elem_of_cons in Hc as [->|Hc]; [done|eauto].
    + split; [|eauto]. intros _. exists c0, s0.
      split; [apply list_elem_of_here|]. eauto.
  - rewrite IH. split; intros (c & s & Hc & Hs & He); exists c, s.
    + split; [by apply list_elem_of_further|done].
    + apply elem_of_cons in Hc as [->|Hc]; [congruence|done].
Qed.

Lemma whole_numbers_false df :
  whole_numbers pn df = false ↔
  ∃ c s, c ∈ recoder_columns ∧ df !! c = Some s ∧ whole_series pn s = false.
Proof.
  unfold whole_numbers. rewrite <- not_true_iff_false, forallb_forall. split.
  - intros Hnot.
    destruct (existsb (λ c, negb (from_option (whole_series pn) true (df !! c)))
                recoder_columns) eqn:Ex.
    + apply existsb_exists in Ex as (c & Hc%list_elem_of_In & Hw).
      destruct (df !! c) as [s|] eqn:Es; [|done]. simpl in Hw.
      exists c, s. split; [done|]. split; [done|].
      by destruct (whole_series pn s).
    + exfalso. apply Hnot. intros c Hc.
      apply not_true_iff_false in Ex.
      destruct (from_option (whole_series pn) true (df !! c)) eqn:Ew; [done|].
      exfalso. apply Ex. apply existsb_exists. exists c. by rewrite Ew.
  - intros (c & s & Hc%list_elem_of_In & Hs & Hw) Hall.
    specialize (Hall c Hc). rewrite Hs in Hall. simpl in Hall. congruence.
Qed.

Lemma exact_numbers_series df c s :
  exact_numbers pn df = true → c ∈ recoder_columns → df !! c = Some s →
  exact_series pn s = true.
Proof.
  unfold exact_numbers. rewrite forallb_forall.
  intros Hex Hc%list_elem_of_In Hs. specialize (Hex c Hc). by rewrite Hs in Hex.
Qed.

(** Within the exact range a number with a fractional part in a named
    column makes the Recoder raise TypeError, whatever else the table
    holds or lacks: the casts come first. *)
Lemma minimal_recode_fraction df :
  exact_numbers pn df = true → whole_numbers pn df = false →
  minimal_recode pn df = Err TypeError.
Proof.
  intros Hex (c & s & Hc & Hs & Hw)%whole_numbers_false.
  apply (cast_fails_iff s (exact_numbers_series _ _ _ Hex Hc Hs)) in Hw.
  destruct (proj2 (coerce_columns_fails recoder_columns df)) as (df' & e & Hloop);
    [eauto|].
  unfold minimal_recode. rewrite minimal_recode_inplace_loop, Hloop.
  by rewrite (coerce_columns_Err _ _ _ _ Hloop).
Qed.


End Properties.

(** * Errors, invariants and composition *)

Section Behaviour.

Context (pn : string → option Q) (pi : string → option Z).

(** ** The Parent Classifier *)

(** X1. The Parent Classifier returns exactly when the table has the four
    columns NCHILD, MOMLOC, POPLOC and NCHLT5; when one of them is absent
    it raises AttributeError, and it raises nothing else. *)
Theorem parent_flags_outcome df :
  match make_parent_flags pn df with
  | Ok _ => ∀ c, c ∈ parent_inputs → is_Some (df !! c)
  | Err e => e = AttributeError ∧ ∃ c, c ∈ parent_inputs ∧ df !! c = None
  end.
Proof.
  assert (∀ c, c ∈ parent_inputs → df !! c = None →
            ∃ c, c ∈ parent_inputs ∧ df !! c = None) as Hex by eauto.
  destruct (df !! "NCHILD") as [nch|] eqn:En.
  2:{ unfold make_parent_flags, get_filled. rewrite En. split; [done|].
      apply (Hex "NCHILD"); [|done]. apply list_elem_of_In; simpl; auto. }
  destruct (df !! "MOMLOC") as [mom|] eqn:Em.
  2:{ unfold make_parent_flags, get_filled. rewrite En, Em. split; [done|].
      apply (Hex "MOMLOC"); [|done]. apply list_elem_of_In; simpl; auto. }
  destruct (df !! "POPLOC") as [pop|] eqn:Ep.
  2:{ unfold make_parent_flags, get_filled. rewrite En, Em, Ep. split; [done|].
      apply (Hex "POPLOC"); [|done]. apply list_elem_of_In; simpl; auto. }
  destruct (df !! "NCHLT5") as [nc5|] eqn:E5.
  2:{ unfold make_parent_flags, get_filled. rewrite En, Em, Ep, E5.
      split; [done|].
      apply (Hex "NCHLT5"); [|done]. apply list_elem_of_In; simpl; auto. }
  rewrite (make_parent_flags_columns pn df nch mom pop nc5) by done.
  intros c Hc%list_elem_of_In. simpl in Hc.
  destruct Hc as [<-|[<-|[<-|[<-|[]]]]]; eauto.
Qed.

(** X2. The Parent Classifier works on a copy: whether it returns or
    raises, every table that existed before the call is as it was.  When
    it returns, the reference it hands back is new, and the table behind
    it has the columns of the input and the two flag columns, every other
    column being the input's, unconverted. *)
Theorem parent_flags_leaves_input r h h' x :
  make_parent_flags_ref pn r h = Some (h', x) →
  (∀ r0, is_Some (h !! r0) → h' !! r0 = h !! r0) ∧
  ∀ r', x = Ok r' →
    h !! r' = None ∧
    ∃ df df', h !! r = Some df ∧ h' !! r' = Some df' ∧
      dom df' = dom df ∪ {["is_parent"; "has_child_u5"]} ∧
      ∀ c, c ≠ "is_parent" → c ≠ "has_child_u5" → df' !! c = df !! c.
Proof.
  clear pi.
  unfold make_parent_flags_ref. destruct (h !! r) as [df|] eqn:E; simpl; [|done].
  assert (h !! fresh (dom h) = None) as Hfresh.
  { apply not_elem_of_dom. apply is_fresh. }
  assert (∀ t r0, is_Some (h !! r0) → <[fresh (dom h) := t]> h !! r0 = h !! r0)
    as Hold.
  { intros t r0 [y Hy]. rewrite lookup_insert_ne; [done|]. congruence. }
  destruct (make_parent_flags pn df) as [df'|e] eqn:Ef; intros [= <- <-].
  2:{ split; [apply Hold|]. intros r' [=]. }
  split; [apply Hold|]. intros r' [= <-]. split; [done|].
  exists df, df'. split; [done|]. split; [apply lookup_insert_eq|].
  unfold make_parent_flags in Ef.
  destruct (get_filled pn df "NCHILD"); [|done].
  destruct (get_filled pn df "MOMLOC"); [|done].
  destruct (get_filled pn df "POPLOC"); [|done].
  destruct (get_filled pn df "NCHLT5"); [|done].
  cbn [mbind res_bind] in Ef.
  destruct (astype_int (bor _ _)); [|done].
  cbn [mbind res_bind] in Ef.
  destruct (astype_int (gt _ _)); [|done].
  injection Ef as <-. split.
  - rewrite !dom_insert_L. apply set_eq. intros c.
    rewrite !elem_of_union, !elem_of_singleton. tauto.
  - intros c H1 H2. by rewrite !lookup_insert_ne.
Qed.

(** ** The Period Tagger *)

(** X3. The Period Tagger raises KeyError when the year column is absent
    and ValueError when that column has the nullable dtype Int64 and
    holds a <NA>; in every other case (a numpy-backed column, whatever
    its cells, or an Int64 column without <NA>) it returns. *)
Theorem period_tagger_outcome df year_col :
  match df !! year_col with
  | None => _make_periods pn df year_col = Err (KeyError year_col)
  | Some (Plain l) => ∃ df', _make_periods pn df year_col = Ok df'
  | Some (Int64 l) =>
      if bool_decide (None ∈ l)
      then _make_periods pn df year_col = Err ValueError
      else ∃ df', _make_periods pn df year_col = Ok df'
  end.
Proof.
  destruct (df !! year_col) as [[l|l]|] eqn:Ey.
  - unfold _make_periods, getitem, ge, le. rewrite Ey. cbn [mbind res_bind].
    rewrite !num_test_plain, !band_Some, !astype_int_Some.
    cbn [mbind res_bind]. eauto.
  - case_bool_decide as Hna.
    + apply list_elem_of_lookup in Hna as [i Hi].
      unfold _make_periods, getitem. rewrite Ey. cbn [mbind res_bind].
      rewrite (astype_int_NA (band (ge _ 1994) _) i); [reflexivity|].
      unfold band, ge, le, num_test; simpl.
      by rewrite lookup_zip_with, !list_lookup_fmap, Hi.
    + unfold _make_periods, getitem. rewrite Ey. cbn [mbind res_bind].
      assert (∀ p, ∃ bs, num_test p (to_numeric pn (Int64 l)) = Some <$> bs)
        as Hbs.
      { intros p. exists (from_option (λ z, p (inject_Z z)) false <$> l).
        simpl. rewrite <- list_fmap_compose. apply Forall_fmap_ext_1.
        apply Forall_forall. intros [z|] Hz; [done|]. done. }
      unfold ge, le.
      destruct (Hbs (λ q, Qle_bool (inject_Z 1994) q)) as [a1 ->].
      destruct (Hbs (λ q, Qle_bool q (inject_Z 2007))) as [b1 ->].
      destruct (Hbs (λ q, Qle_bool (inject_Z 2008) q)) as [a2 ->].
      destruct (Hbs (λ q, Qle_bool q (inject_Z 2019))) as [b2 ->].
      destruct (Hbs (λ q, Qle_bool (inject_Z 2020) q)) as [a3 ->].
      rewrite !band_Some, !astype_int_Some. cbn [mbind res_bind]. eauto.
  - unfold _make_periods, getitem. by rewrite Ey.
Qed.

Lemma num_test_length p s :
  length (num_test p (to_numeric pn s)) = series_len s.
Proof.
  destruct s; unfold to_numeric, num_test, series_len;
    by rewrite ?length_fmap.
Qed.

Lemma astype_int_flags b s :
  astype_int b = Ok s →
  ∃ l, s = Plain l ∧ length l = length b ∧ Forall is_flag l.
Proof.
  intros (l & -> & ->)%astype_int_Ok. eexists. split; [done|].
  split; [by rewrite !length_fmap|]. apply bool_cells_flags.
Qed.

(** X4. When the Period Tagger returns, the table it returns is the
    input with the three columns P1, P2, P3 set: each is a numpy column
    of 0/1 integers with one entry per entry of the year column, and
    every other column, the year column included, is the input's. *)
Theorem period_tagger_shape df year_col df' s :
  _make_periods pn df year_col = Ok df' →
  df !! year_col = Some s →
  (∀ c, c ∉ ["P1"; "P2"; "P3"] → df' !! c = df !! c) ∧
  ∀ p, p ∈ ["P1"; "P2"; "P3"] →
    ∃ l, df' !! p = Some (Plain l) ∧ length l = series_len s ∧
         Forall is_flag l.
Proof.
  intros (s' & p1 & p2 & p3 & Hs' & H1 & H2 & H3 & ->)%make_periods_Ok Hs.
  assert (s' = s) as -> by congruence.
  split.
  - intros c Hc. rewrite !lookup_insert_ne; [done| | |];
      intros <-; apply Hc, list_elem_of_In; simpl; auto.
  - apply astype_int_flags in H1 as (l1 & -> & L1 & F1).
    apply astype_int_flags in H2 as (l2 & -> & L2 & F2).
    apply astype_int_flags in H3 as (l3 & -> & L3 & F3).
    unfold band, ge, le in L1, L2, L3.
    rewrite length_zip_with, !num_test_length in L1, L2.
    rewrite num_test_length in L3.
    intros p Hp%list_elem_of_In. simpl in Hp.
    destruct Hp as [<-|[<-|[<-|[]]]].
    + exists l1. rewrite !lookup_insert_ne, lookup_insert_eq by done.
      split; [done|]. split; [lia|done].
    + exists l2. rewrite lookup_insert_ne, lookup_insert_eq by done.
      split; [done|]. split; [lia|done].
    + exists l3. rewrite lookup_insert_eq. done.
Qed.

(** X25. Tagging twice is tagging once: when the Period Tagger returns
    on a table, with a year column other than P1, P2 and P3, it returns
    the same table when run on its own result. *)
Theorem period_tagger_idempotent df year_col df' :
  year_col ∉ ["P1"; "P2"; "P3"] →
  _make_periods pn df year_col = Ok df' →
  _make_periods pn df' year_col = Ok df'.
Proof.
  intros Hyc (s & p1 & p2 & p3 & Hs & H1 & H2 & H3 & ->)%make_periods_Ok.
  apply make_periods_Ok. exists s, p1, p2, p3.
  split; [|split; [done|split; [done|split; [done|]]]].
  - rewrite !lookup_insert_ne; [done| | |];
      intros <-; apply Hyc, list_elem_of_In; simpl; auto.
  - apply map_eq. intros c.
    destruct (decide (c = "P3")) as [->|N3]; [by rewrite !lookup_insert_eq|].
    rewrite !(lookup_insert_ne _ "P3") by done.
    destruct (decide (c = "P2")) as [->|N2]; [by rewrite !lookup_insert_eq|].
    rewrite !(lookup_insert_ne _ "P2") by done.
    destruct (decide (c = "P1")) as [->|N1]; [by rewrite !lookup_insert_eq|].
    by rewrite !lookup_insert_ne by done.
Qed.

(** ** The Rate Aggregator *)

Lemma mapM_res_Err {A B} (f : A → res B) (P : error → Prop) (l : list A) e :
  (∀ x e', f x = Err e' → P e') → mapM f l = Err e → P e.
Proof.
  intros Hf. induction l as [|x l IH]; simpl; [done|].
  destruct (f x) as [y|e1] eqn:Ex; simpl.
  - destruct (mapM f l) as [ys|e2]; simpl; [done|].
    intros [= <-]. by apply IH.
  - intros [= <-]. by eapply Hf.
Qed.

Lemma mean_Err vs e : mean vs = Err e → e = TypeError.
Proof.
  unfold mean. destruct (existsb is_text vs); [congruence|].
  by destruct (omap cell_value vs).
Qed.

Lemma key_int_Err k e : key_int pi k = Err e → e = ValueError.
Proof. destruct k as [q|s]; simpl; [done|]. destruct (pi s); congruence. Qed.

Lemma summarise_errors rows e :
  summarise pi rows = Err e → e = TypeError ∨ e = ValueError.
Proof.
  unfold summarise.
  destruct (mapM (λ k, mean (group_values rows k)) (group_keys rows))
    as [rates|e1] eqn:E1; cbn [mbind res_bind].
  2:{ intros [= <-]. left. revert E1.
      apply (mapM_res_Err _ (λ e, e = TypeError)).
      intros k e'. apply mean_Err. }
  destruct (mapM (λ k : key3, key_int pi k.1.1) _) as [ys|e2] eqn:E2;
    cbn [mbind res_bind].
  2:{ intros [= <-]. right. revert E2.
      apply (mapM_res_Err _ (λ e, e = ValueError)).
      intros k e'. apply key_int_Err. }
  destruct (mapM (λ k : key3, key_int pi k.1.2) _) as [ms|e3] eqn:E3;
    cbn [mbind res_bind].
  2:{ intros [= <-]. right. revert E3.
      apply (mapM_res_Err _ (λ e, e = ValueError)).
      intros k e'. apply key_int_Err. }
  destruct (mapM (λ k : key3, key_int pi k.2) _) as [ps|e4] eqn:E4;
    cbn [mbind res_bind].
  2:{ intros [= <-]. right. revert E4.
      apply (mapM_res_Err _ (λ e, e = ValueError)).
      intros k e'. apply key_int_Err. }
  done.
Qed.

Lemma eligibility_mask_total df se sa :
  df !! "EMPSTAT" = Some se → df !! "AGE" = Some sa →
  ∃ keep, eligibility_mask pn df = Ok keep.
Proof.
  intros He Ha. unfold eligibility_mask, get_filled, between, ge, le.
  rewrite He, Ha. cbn [mbind res_bind].
  rewrite isin_filled, !num_test_filled, !band_Some, to_bools_Some. eauto.
Qed.

(** X5. What the Rate Aggregator raises for an absent column: the first
    column it misses decides.  Without EMPSTAT or AGE it is
    AttributeError (from [df.get]); with both, the first absent one of
    YEAR, MONTH, is_parent, own_ill_absent gives the KeyError of that
    column.  These two errors have no other cause: with all six columns
    present it raises neither AttributeError nor KeyError. *)
Theorem aggregator_errors df :
  match first_absent df aggregator_inputs with
  | Some c =>
      _aggregate_monthly_rates pn pi df =
      Err (if bool_decide (c ∈ ["EMPSTAT"; "AGE"])
           then AttributeError else KeyError c)
  | None =>
      _aggregate_monthly_rates pn pi df ≠ Err AttributeError ∧
      ∀ c, _aggregate_monthly_rates pn pi df ≠ Err (KeyError c)
  end.
Proof.
  unfold first_absent, aggregator_inputs. rewrite !filter_cons, filter_nil.
  unfold _aggregate_monthly_rates.
  destruct (df !! "EMPSTAT") as [se|] eqn:Ee.
  2:{ rewrite decide_True by done. simpl.
      unfold eligibility_mask, get_filled. by rewrite Ee. }
  rewrite decide_False by done.
  destruct (df !! "AGE") as [sa|] eqn:Ea.
  2:{ rewrite decide_True by done. simpl.
      unfold eligibility_mask, get_filled. by rewrite Ee, Ea. }
  rewrite decide_False by done.
  destruct (eligibility_mask_total df se sa Ee Ea) as [keep ->].
  cbn [mbind res_bind]. unfold getitem.
  destruct (df !! "YEAR") as [sy|] eqn:Ey.
  2:{ rewrite decide_True by done. done. }
  rewrite decide_False by done.
  destruct (df !! "MONTH") as [sm|] eqn:Em.
  2:{ rewrite decide_True by done. done. }
  rewrite decide_False by done.
  destruct (df !! "is_parent") as [sp|] eqn:Ep.
  2:{ rewrite decide_True by done. done. }
  rewrite decide_False by done.
  destruct (df !! "own_ill_absent") as [sv|] eqn:Ev.
  2:{ rewrite decide_True by done. done. }
  rewrite decide_False by done. cbn [head mbind res_bind].
  split; [|intros c]; intros [?|?]%summarise_errors; done.
Qed.

(** X6. A table with no row to average gives the empty rate table, not
    an error: when every row fails the eligibility filter or lacks one
    of its three keys (and in particular when the table has no rows),
    the Rate Aggregator returns the four columns YEAR, MONTH, is_parent
    and rate with no entries. *)
Theorem no_eligible_rows_no_rates df obs :
  has_rows df obs →
  Forall (λ o, eligible pn o = false ∨ o_year o = Null ∨ o_month o = Null
               ∨ o_parent o = Null) obs →
  _aggregate_monthly_rates pn pi df = Ok (rate_table [] []).
Proof.
  intros Hrows Hnone. rewrite (aggregate_rows pn pi df obs Hrows).
  assert (omap obs_row (filter (λ o, eligible pn o = true) obs) = []) as ->.
  { clear Hrows. induction Hnone as [|o obs Ho _ IH]; [done|].
    rewrite filter_cons.
    case_decide as Hel; [|exact IH]. cbn [omap list_omap].
    assert (obs_row o = None) as ->; [|exact IH].
    unfold obs_row, row_key.
    destruct Ho as [Ho|[-> |[-> | ->]]]; [congruence|done| |].
    - by destruct (cell_key (o_year o)).
    - by destruct (cell_key (o_year o)), (cell_key (o_month o)). }
  reflexivity.
Qed.









(** ** The Recoder *)

(** The table as a coercion loop leaves it, however the loop ends: a
    column is the input's, or it is the cast of the input's. *)
Lemma coerce_columns_state cs df df' oe :
  coerce_columns pn cs df = (df', oe) →
  ∀ c, df' !! c = df !! c
       ∨ c ∈ cs ∧ ∃ s s', df !! c = Some s ∧
                          astype_Int64 (to_numeric pn s) = Ok s' ∧
                          df' !! c = Some s'.
Proof.
  revert df. induction cs as [|c0 cs IH]; intros df; simpl.
  { intros [= <- <-] c. by left. }
  destruct (df !! c0) as [s0|] eqn:E0.
  2:{ intros Hrec c. destruct (IH _ Hrec c) as [?|[Hc ?]]; [by left|right].
      split; [by apply list_elem_of_further|done]. }
  destruct (astype_Int64 (to_numeric pn s0)) as [s0'|e] eqn:Ec.
  2:{ intros [= <- <-] c. by left. }
  intros Hrec c. destruct (decide (c = c0)) as [->|Hne].
  - right. split; [apply list_elem_of_here|]. exists s0, s0'.
    split; [done|]. split; [done|].
    destruct (IH _ Hrec c0) as [H|(_ & s & s' & Hs & Hcast & H)].
    + by rewrite H, lookup_insert_eq.
    + rewrite lookup_insert_eq in Hs. injection Hs as <-.
      rewrite (astype_Int64_again pn _ _ Ec) in Hcast. congruence.
  - destruct (IH _ Hrec c) as [H|(Hc & s & s' & Hs & Hcast & H)].
    + left. by rewrite H, lookup_insert_ne.
    + right. split; [by apply list_elem_of_further|].
      rewrite lookup_insert_ne in Hs by done. eauto.
Qed.

Lemma coerce_columns_dom cs df df' oe :
  coerce_columns pn cs df = (df', oe) → dom df' = dom df.
Proof.
  intros Hloop. apply set_eq. intros c. rewrite !elem_of_dom.
  destruct (coerce_columns_state _ _ _ _ Hloop c)
    as [->|(_ & s & s' & -> & _ & ->)]; [done|]. split; eauto.
Qed.

Lemma own_ill_absent_not_named c : c ∈ recoder_columns → c ≠ "own_ill_absent".
Proof.
  intros Hc ->. apply list_elem_of_In in Hc. simpl in Hc.
  repeat destruct Hc as [Hc|Hc]; done.
Qed.

(** X8. The Recoder adds one column, own_ill_absent, and no other: the
    columns of its result are those of the input and own_ill_absent (a
    column it names that the input lacks is not created), and every
    column it does not name is returned as it was. *)
Theorem recoder_keeps_columns df df' :
  minimal_recode pn df = Ok df' →
  dom df' = dom df ∪ {["own_ill_absent"]} ∧
  ∀ c, c ∉ recoder_columns → c ≠ "own_ill_absent" → df' !! c = df !! c.
Proof.
  clear pi.
  intros (df2 & f & Hloop & _ & ->)%minimal_recode_Ok. split.
  - rewrite dom_insert_L, (coerce_columns_dom _ _ _ _ Hloop).
    apply set_eq. intros c. rewrite !elem_of_union. tauto.
  - intros c Hc Hne. rewrite lookup_insert_ne by done.
    destruct (coerce_columns_state _ _ _ _ Hloop c) as [H|[H _]]; done.
Qed.

Lemma astype_Int64_length s s' :
  astype_Int64 (to_numeric pn s) = Ok s' → series_len s' = series_len s.
Proof.
  destruct s as [l|l]; simpl.
  - destruct (forallb _ _); [|done]. intros [= <-]. simpl.
    by rewrite !length_fmap.
  - by intros [= <-].
Qed.

(** X9. The Recoder keeps the numbers.  Each column it names and finds
    becomes a nullable Int64 column with as many entries as before; when
    the numbers of the column are at most 2^53 in magnitude (the range
    in which the library's float64 reading is exact), an entry that read
    as a number (as a number or as text) holds that number, and an entry
    that did not is <NA>. *)
Theorem recoder_preserves_numbers df df' c s :
  minimal_recode pn df = Ok df' →
  c ∈ recoder_columns →
  df !! c = Some s →
  exact_series pn s = true →
  ∃ l, df' !! c = Some (Int64 l) ∧ length l = series_len s ∧
    ∀ i x, series_cells s !! i = Some x →
      match coerce pn x with
      | Some q => ∃ z, l !! i = Some (Some z) ∧ (q == inject_Z z)%Q
      | None => l !! i = Some None
      end.
Proof.
  intros (df2 & f & Hloop & _ & ->)%minimal_recode_Ok Hc Hs _.
  rewrite lookup_insert_ne by (symmetry; by apply own_ill_absent_not_named).
  pose proof (coerce_columns_lookup pn _ _ _ Hloop c) as Hl. rewrite Hs in Hl.
  rewrite bool_decide_eq_true_2 in Hl by done.
  destruct Hl as (s' & Hcast & ->).
  pose proof (astype_Int64_length _ _ Hcast) as Hlen.
  apply astype_Int64_cells in Hcast as (l & -> & Hcells).
  exists l. split; [done|]. split; [done|].
  intros i x Hx. destruct (Hcells _ _ Hx) as [Hi Hint].
  destruct (coerce pn x) as [q|]; [|done].
  exists (Q_to_Z q). split; [done|]. apply is_integral_eq. by apply Hint.
Qed.

(** A test on the filled numbers of a column gives the same answers
    before and after the cast to Int64. *)
Lemma filled_recoded (p : Q → bool) s s' :
  Proper (Qeq ==> eq) p →
  astype_Int64 (to_numeric pn s) = Ok s' →
  (λ c, p (filled pn c)) <$> series_cells s'
  = (λ c, p (filled pn c)) <$> series_cells s.
Proof.
  intros Hp Hcast. pose proof (astype_Int64_length _ _ Hcast) as Hlen.
  apply astype_Int64_cells in Hcast as (l & -> & Hcells).
  apply list_eq. intros i. rewrite !list_lookup_fmap.
  destruct (series_cells s !! i) as [x|] eqn:Ex.
  - destruct (Hcells _ _ Ex) as [Hi Hint]. simpl.
    rewrite list_lookup_fmap, Hi. simpl. f_equal. unfold filled.
    destruct (coerce pn x) as [q|]; simpl; [|done].
    apply Hp. symmetry. apply is_integral_eq. by apply Hint.
  - replace (series_cells (Int64 l) !! i) with (@None cell); [done|].
    symmetry. apply lookup_ge_None. apply lookup_ge_None in Ex.
    revert Hlen Ex. destruct s; simpl; rewrite !length_fmap; lia.
Qed.

Lemma recoded_helper df df1 c s :
  minimal_recode pn df = Ok df1 → c ∈ helper_columns → df !! c = Some s →
  ∃ s', astype_Int64 (to_numeric pn s) = Ok s' ∧ df1 !! c = Some s'.
Proof.
  intros (df2 & f & Hloop & _ & ->)%minimal_recode_Ok Hc Hs.
  assert (c ∈ recoder_columns) as Hc'.
  { unfold recoder_columns. apply elem_of_app. by right. }
  rewrite lookup_insert_ne by (symmetry; by apply own_ill_absent_not_named).
  pose proof (coerce_columns_lookup pn _ _ _ Hloop c) as Hl. rewrite Hs in Hl.
  by rewrite bool_decide_eq_true_2 in Hl.
Qed.

(** X10. Classifying before or after recoding gives the same flags: if
    the Recoder returns on a table and the Parent Classifier returns on
    that same raw table, then the Parent Classifier returns on the
    recoded table too, with the same is_parent and has_child_u5
    columns. *)
Theorem parent_flags_raw_or_recoded df df1 df2 :
  minimal_recode pn df = Ok df1 →
  make_parent_flags pn df = Ok df2 →
  ∃ df3, make_parent_flags pn df1 = Ok df3 ∧
    df3 !! "is_parent" = df2 !! "is_parent" ∧
    df3 !! "has_child_u5" = df2 !! "has_child_u5".
Proof.
  intros Hrec Hflags.
  destruct (make_parent_flags_Ok pn _ _ Hflags)
    as (nch & mom & pop & nc5 & Hn & Hm & Hp & H5).
  rewrite (make_parent_flags_columns pn _ _ _ _ _ Hn Hm Hp H5) in Hflags.
  injection Hflags as <-.
  destruct (recoded_helper _ _ "NCHILD" nch Hrec) as (nch' & Cn & Hn');
    [apply list_elem_of_In; simpl; auto 10|done|].
  destruct (recoded_helper _ _ "MOMLOC" mom Hrec) as (mom' & Cm & Hm');
    [apply list_elem_of_In; simpl; auto 10|done|].
  destruct (recoded_helper _ _ "POPLOC" pop Hrec) as (pop' & Cp & Hp');
    [apply list_elem_of_In; simpl; auto 10|done|].
  destruct (recoded_helper _ _ "NCHLT5" nc5 Hrec) as (nc5' & C5 & H5');
    [apply list_elem_of_In; simpl; auto 10|done|].
  rewrite (make_parent_flags_columns pn _ _ _ _ _ Hn' Hm' Hp' H5').
  eexists. split; [done|].
  assert (Proper (Qeq ==> eq) (λ q, negb (Qle_bool q (inject_Z 0)))) as Hpos.
  { intros q1 q2 Hq. by rewrite Hq. }
  rewrite !(lookup_insert_ne _ "has_child_u5" "is_parent") by done.
  rewrite !lookup_insert_eq.
  rewrite (filled_recoded _ _ _ Hpos Cn), (filled_recoded _ _ _ Hpos Cm),
    (filled_recoded _ _ _ Hpos Cp), (filled_recoded _ _ _ Hpos C5).
  done.
Qed.

(** X13. A failing Recoder call is not undone.  When the Recoder raises,
    the caller's table keeps its set of columns (own_ill_absent is not
    added) and the columns the Recoder does not name, but a named column
    may already have been replaced by its Int64 cast; when the failure
    is KeyError, it is for ABSENT or WHYABSNT, that column is absent, and
    every named column the table has is by then an Int64 column. *)
Theorem recoder_failure_state r h h' e df :
  h !! r = Some df →
  minimal_recode_ref pn r h = Some (h', Err e) →
  ∃ df', h' = <[r := df']> h ∧ dom df' = dom df ∧
    (∀ c, c ∉ recoder_columns → df' !! c = df !! c) ∧
    (∀ c s, c ∈ recoder_columns → df !! c = Some s →
       df' !! c = Some s ∨ ∃ l, df' !! c = Some (Int64 l)) ∧
    (∀ k, e = KeyError k →
       (k = "ABSENT" ∨ k = "WHYABSNT") ∧ df !! k = None ∧
       ∀ c s, c ∈ recoder_columns → df !! c = Some s →
              ∃ l, df' !! c = Some (Int64 l)).
Proof.
  intros Hr. unfold minimal_recode_ref. rewrite Hr. cbn [mbind option_bind].
  rewrite minimal_recode_inplace_loop.
  destruct (coerce_columns pn recoder_columns df) as [df2 oe] eqn:Hloop.
  pose proof (coerce_columns_state _ _ _ _ Hloop) as Hstate.
  pose proof (coerce_columns_dom _ _ _ _ Hloop) as Hdom.
  assert (∀ c, c ∉ recoder_columns → df2 !! c = df !! c) as Hother.
  { intros c Hc. destruct (Hstate c) as [H|[H _]]; done. }
  assert (∀ c s, c ∈ recoder_columns → df !! c = Some s →
                 df2 !! c = Some s ∨ ∃ l, df2 !! c = Some (Int64 l)) as Hnamed.
  { intros c s Hc Hs. destruct (Hstate c) as [H|(_ & s0 & s' & _ & Hcast & H)].
    - left. congruence.
    - right. apply astype_Int64_cells in Hcast as (l & -> & _). eauto. }
  destruct oe as [e0|].
  { intros [= <- <-]. exists df2. repeat (split; [done|]).
    intros k ->. by apply coerce_columns_Err in Hloop. }
  destruct (own_ill_flag df2) as [f|e0] eqn:Hf; [done|].
  intros [= <- <-]. exists df2. repeat (split; [done|]).
  intros k ->.
  assert (∀ c, df2 !! c = None → df !! c = None) as Hnone.
  { intros c Hc. apply not_elem_of_dom. rewrite <- Hdom.
    by apply not_elem_of_dom. }
  assert (∀ c s, c ∈ recoder_columns → df !! c = Some s →
                 ∃ l, df2 !! c = Some (Int64 l)) as Hall.
  { intros c s Hc Hs.
    pose proof (coerce_columns_lookup pn _ _ _ Hloop c) as Hl.
    rewrite Hs in Hl. rewrite bool_decide_eq_true_2 in Hl by done.
    destruct Hl as (s' & (l & -> & _)%astype_Int64_cells & Hl). eauto. }
  unfold own_ill_flag, getitem in Hf.
  destruct (df2 !! "ABSENT") as [a|] eqn:Ea.
  2:{ injection Hf as <-. split; [by left|]. split; [by apply Hnone|done]. }
  destruct (df2 !! "WHYABSNT") as [w|] eqn:Ew.
  2:{ injection Hf as <-. split; [by right|]. split; [by apply Hnone|done]. }
  cbn [mbind res_bind] in Hf. by apply astype_int_Err in Hf.
Qed.

(** X24. On a table whose numbers in the named columns are at most
    2^53 in magnitude, the Recoder raises TypeError exactly when one of
    the columns it names holds a number with a fractional part (as a
    number or as text); absent columns, nulls and text that is no number
    never cause it. *)
Theorem recoder_type_error df :
  exact_numbers pn df = true →
  minimal_recode pn df = Err TypeError ↔ whole_numbers pn df = false.
Proof.
  intros Hex. split; [|by apply minimal_recode_fraction].
  unfold minimal_recode. rewrite minimal_recode_inplace_loop.
  destruct (coerce_columns pn recoder_columns df) as [df2 [e|]] eqn:Hloop.
  - intros _.
    destruct (proj1 (coerce_columns_fails pn recoder_columns df))
      as (c & s & Hc & Hs & Hfail); [eauto|].
    apply whole_numbers_false. exists c, s. split; [done|]. split; [done|].
    by apply (cast_fails_iff pn s (exact_numbers_series pn _ _ _ Hex Hc Hs)).
  - unfold own_ill_flag, getitem.
    destruct (df2 !! "ABSENT"); [|done].
    destruct (df2 !! "WHYABSNT"); [|done]. cbn [mbind res_bind].
    destruct (astype_int _) as [f|e] eqn:Ef; [done|].
    by rewrite (astype_int_Err _ _ Ef).
Qed.

(** ** The stages composed *)

(** X11. After the Recoder and the Parent Classifier the Rate Aggregator
    cannot fail: on the table the two return (with the six columns the
    Aggregator reads) it returns a rate table, one rate per key; every
    rate is a number, never NaN, and every is_parent value in it is 0
    or 1. *)
Theorem rates_after_recoding df df1 df2 obs :
  minimal_recode pn df = Ok df1 →
  make_parent_flags pn df1 = Ok df2 →
  has_rows df2 obs →
  ∃ (ts : list (Z * Z * Z)) (rs : list Q),
    _aggregate_monthly_rates pn pi df2 = Ok (rate_table ts (Float <$> rs)) ∧
    length rs = length ts ∧
    Forall (λ t : Z * Z * Z, t.2 = 0 ∨ t.2 = 1) ts.
Proof.
  intros Hrec Hflags Hrows.
  pose proof (pipeline_flagged pn _ _ _ _ Hrec Hflags Hrows) as Hfl.
  set (rows := omap obs_row (filter (λ o, eligible pn o = true) obs)).
  assert (∀ r, r ∈ rows → ∃ t z, r = (zkey t, Int z) ∧ (t.2 = 0 ∨ t.2 = 1))
    as Hint.
  { intros r Hr.
    destruct (rows_of_flagged pn _ _ Hfl Hr)
      as (o & y & m & p & z & Ho & (_ & _ & _ & Hp) & ->).
    exists (y, m, p), z. split; [done|]. simpl.
    rewrite Forall_forall in Hfl. destruct (Hfl o Ho) as (_ & _ & Hflag & _).
    rewrite Hp in Hflag. destruct Hflag as [[= ->]|[= ->]]; auto. }
  exists (key3_ints <$> group_keys rows),
    ((λ k, rate_value (group_values rows k)) <$> group_keys rows).
  split; [|split; [by rewrite !length_fmap|]].
  - rewrite (aggregate_rows pn pi _ _ Hrows). fold rows.
    rewrite (summarise_int_keys pi rows).
    + by rewrite <- list_fmap_compose.
    + intros r Hr. destruct (Hint r Hr) as (t & z & -> & _). eauto.
  - apply Forall_fmap, Forall_forall.
    intros k (r & -> & Hr)%group_keys_elem%list_elem_of_fmap.
    destruct (Hint r Hr) as (t & z & -> & Ht).
    rewrite <- (key3_ints_zkey t) in Ht. exact Ht.
Qed.

Lemma mapM_res_length {A B} (f : A → res B) (l : list A) l' :
  mapM f l = Ok l' → length l' = length l.
Proof.
  revert l'. induction l as [|x l IH]; intros l'; simpl.
  { by intros [= <-]. }
  destruct (f x) as [y|e]; simpl; [|done].
  destruct (mapM f l) as [ys|e]; simpl; [|done].
  intros [= <-]. simpl. f_equal. by apply IH.
Qed.

Lemma monthlevel_ols_ints rates sy sm (ys ms : list Z) :
  rates !! "YEAR" = Some sy → series_cells sy = Int <$> ys →
  rates !! "MONTH" = Some sm → series_cells sm = Int <$> ms →
  ∃ fit, run_monthlevel_ols pn pi rates = Ok fit ∧
    fit_groups fit =
      Plain (Int <$> zip_with (λ y m, wrap64 (wrap64 (y * 12) + m)) ys ms).
Proof.
  intros Hy Cy Hm Cm.
  destruct (make_periods_ints pn _ _ _ Hy Cy) as [tagged Ht].
  unfold run_monthlevel_ols. rewrite Ht. cbn [mbind res_bind].
  apply make_periods_Ok in Ht as (s & p1 & p2 & p3 & _ & _ & _ & _ & ->).
  unfold getitem. rewrite !lookup_insert_ne by done. rewrite Hy, Hm.
  cbn [mbind res_bind].
  rewrite (series_astype_int_ints pi _ _ Cy), (series_astype_int_ints pi _ _ Cm).
  cbn [mbind res_bind]. eauto.
Qed.

(** X12. Whatever the Rate Aggregator returns, the Group-Rate OLS
    accepts: the result has exactly the columns YEAR, MONTH, is_parent
    (integers, never null) and rate, all of one length, so the Period
    Tagger does not raise on it and the regression is requested. *)
Theorem ols_accepts_monthly_rates df rates :
  _aggregate_monthly_rates pn pi df = Ok rates →
  (∃ (ys ms ps : list Z) (rs : list cell),
     rates = <["rate" := Plain rs]>
             (<["is_parent" := Plain (Int <$> ps)]>
              (<["MONTH" := Plain (Int <$> ms)]>
               (<["YEAR" := Plain (Int <$> ys)]> (∅ : DataFrame)))) ∧
     length ms = length ys ∧ length ps = length ys ∧ length rs = length ys) ∧
  ∃ tagged fit,
    _make_periods pn rates "YEAR" = Ok tagged ∧
    run_monthlevel_ols pn pi rates = Ok fit.
Proof.
  unfold _aggregate_monthly_rates.
  destruct (eligibility_mask pn df) as [keep|]; [|done].
  destruct (getitem df "YEAR") as [y|]; [|done].
  destruct (getitem df "MONTH") as [m|]; [|done].
  destruct (getitem df "is_parent") as [p|]; [|done].
  destruct (getitem df "own_ill_absent") as [v|]; [|done].
  cbn [mbind res_bind]. unfold summarise.
  destruct (mapM (λ k, mean _) _) as [rs|] eqn:Er; [|done].
  cbn [mbind res_bind].
  destruct (mapM (λ k : key3, key_int pi k.1.1) _) as [ys|] eqn:Ey; [|done].
  cbn [mbind res_bind].
  destruct (mapM (λ k : key3, key_int pi k.1.2) _) as [ms|] eqn:Em; [|done].
  cbn [mbind res_bind].
  destruct (mapM (λ k : key3, key_int pi k.2) _) as [ps|] eqn:Ep; [|done].
  cbn [mbind res_bind]. intros [= <-].
  apply mapM_res_length in Er, Ey, Em, Ep. split.
  - exists ys, ms, ps, rs. split; [done|]. lia.
  - destruct (make_periods_ints pn
                (<["rate" := Plain rs]>
                 (<["is_parent" := Plain (Int <$> ps)]>
                  (<["MONTH" := Plain (Int <$> ms)]>
                   (<["YEAR" := Plain (Int <$> ys)]> (∅ : DataFrame)))))
                (Plain (Int <$> ys)) ys) as [tagged Ht]; [done|done|].
    destruct (monthlevel_ols_ints
                (<["rate" := Plain rs]>
                 (<["is_parent" := Plain (Int <$> ps)]>
                  (<["MONTH" := Plain (Int <$> ms)]>
                   (<["YEAR" := Plain (Int <$> ys)]> (∅ : DataFrame)))))
                (Plain (Int <$> ys)) (Plain (Int <$> ms)) ys ms)
      as [fit [Hfit _]]; [done|done|done|done|].
    eauto.
Qed.

(** X26. The Rate Aggregator cannot be run on its own result: a rate
    table has no EMPSTAT column, so aggregating it again raises
    AttributeError. *)
Theorem aggregator_not_rerunnable df rates :
  _aggregate_monthly_rates pn pi df = Ok rates →
  _aggregate_monthly_rates pn pi rates = Err AttributeError.
Proof.
  unfold _aggregate_monthly_rates at 1.
  destruct (eligibility_mask pn df) as [keep|]; [|done].
  destruct (getitem df "YEAR") as [y|]; [|done].
  destruct (getitem df "MONTH") as [m|]; [|done].
  destruct (getitem df "is_parent") as [p|]; [|done].
  destruct (getitem df "own_ill_absent") as [v|]; [|done].
  cbn [mbind res_bind]. unfold summarise.
  destruct (mapM (λ k, mean _) _) as [rs|]; [|done].
  cbn [mbind res_bind].
  destruct (mapM (λ k : key3, key_int pi k.1.1) _) as [ys|]; [|done].
  cbn [mbind res_bind].
  destruct (mapM (λ k : key3, key_int pi k.1.2) _) as [ms|]; [|done].
  cbn [mbind res_bind].
  destruct (mapM (λ k : key3, key_int pi k.2) _) as [ps|]; [|done].
  cbn [mbind res_bind]. intros [= <-].
  unfold _aggregate_monthly_rates, eligibility_mask, get_filled.
  by rewrite !lookup_insert_ne, lookup_empty by done.
Qed.


(** ** The person-level model *)


(** ** The extract request *)

Lemma elem_of_range a b y : y ∈ range a b ↔ a ≤ y < b.
Proof. unfold range. rewrite elem_of_seqZ. lia. Qed.

(** X15. The extract asks for every year from 1994 to the current year,
    both included (for no year at all if the clock reads a year before
    1994), and for the months 1 to 12, each once. *)
Theorem extract_samples this_year :
  (∀ y, y ∈ sample_years (_build_extract this_year) ↔ 1994 ≤ y ≤ this_year) ∧
  (∀ m, m ∈ sample_months (_build_extract this_year) ↔ 1 ≤ m ≤ 12) ∧
  NoDup (sample_years (_build_extract this_year)) ∧
  NoDup (sample_months (_build_extract this_year)) ∧
  (sample_years (_build_extract this_year) = [] ↔ this_year < 1994).
Proof.
  unfold _build_extract. cbn [sample_years sample_months].
  split; [|split; [|split; [|split]]].
  - intros y. rewrite elem_of_range. lia.
  - intros m. rewrite elem_of_range. lia.
  - apply NoDup_seqZ.
  - apply NoDup_seqZ.
  - split.
    + intros Hnil. destruct (decide (this_year < 1994)) as [|Hge]; [done|].
      assert (1994 ∈ range 1994 (this_year + 1)) as Hin
        by (apply elem_of_range; lia).
      rewrite Hnil in Hin. by apply not_elem_of_nil in Hin.
    + intros Hlt. unfold range, seqZ.
      replace (Z.to_nat (this_year + 1 - 1994)) with 0%nat by lia. done.
Qed.

(** X16. Every year the extract asks for belongs to exactly one period:
    on a table whose YEAR cells are requested years the Period Tagger
    returns, and in each row exactly one of P1, P2, P3 is 1. *)
Theorem requested_years_are_tagged this_year df s :
  df !! "YEAR" = Some s →
  Forall (λ c, ∃ y, c = Int y ∧ y ∈ sample_years (_build_extract this_year))
    (series_cells s) →
  ∃ df', _make_periods pn df "YEAR" = Ok df' ∧
    ∀ i, (i < series_len s)%nat →
      ∃ p1 p2 p3 : Z,
        (df' !! "P1") ≫= (λ s, series_cells s !! i) = Some (Int p1) ∧
        (df' !! "P2") ≫= (λ s, series_cells s !! i) = Some (Int p2) ∧
        (df' !! "P3") ≫= (λ s, series_cells s !! i) = Some (Int p3) ∧
        exactly_one p1 p2 p3.
Proof.
  intros Hy Hreq.
  assert (∃ ys, series_cells s = Int <$> ys) as [ys Hys].
  { clear Hy. induction Hreq as [|c l (y & -> & _) _ [ys IH]].
    - by exists [].
    - exists (y :: ys). simpl. by rewrite IH. }
  destruct (make_periods_ints pn _ _ _ Hy Hys) as [df' Hok].
  exists df'. split; [done|]. intros i Hi.
  assert (length (series_cells s) = series_len s) as Hlen.
  { destruct s; simpl; by rewrite ?length_fmap. }
  destruct (lookup_lt_is_Some_2 (series_cells s) i) as [c Hc]; [lia|].
  rewrite Forall_forall in Hreq.
  destruct (Hreq c) as (y & -> & Hyear); [by eapply list_elem_of_lookup_2|].
  cbn [_build_extract sample_years] in Hyear. apply elem_of_range in Hyear.
  destruct (make_periods_row pn _ _ _ _ _ Hok Hy Hc) as (H1 & H2 & H3).
  eexists _, _, _. split; [exact H1|]. split; [exact H2|]. split; [exact H3|].
  cbn [coerce from_option]. unfold exactly_one, in_P1, in_P2, in_P3.
  rewrite !(Qle_bool_inject_l _ (inject_Z y) y),
    !(Qle_bool_inject_r _ (inject_Z y) y) by reflexivity.
  repeat match goal with
         | |- context [?a <=? ?b] => destruct (Z.leb_spec a b)
         end; simpl; lia.
Qed.

(** X17. The extract asks for what the pipeline reads: every column the
    Recoder names, the four columns of the Parent Classifier, the raw
    columns of the Rate Aggregator and the state column of the
    person-level model are requested variables; and the server-side case
    selection on AGE keeps every person the Rate Aggregator would
    keep. *)
Theorem extract_requests_inputs this_year :
  (∀ c, c ∈ recoder_columns → c ∈ variables (_build_extract this_year)) ∧
  (∀ c, c ∈ parent_inputs → c ∈ variables (_build_extract this_year)) ∧
  (∀ c, c ∈ aggregator_inputs →
        c ∈ variables (_build_extract this_year)
        ∨ c = "is_parent" ∨ c = "own_ill_absent") ∧
  "STATEFIP" ∈ variables (_build_extract this_year) ∧
  ∃ lo hi,
    caseSelect (_build_extract this_year) = [("AGE", (lo, hi))] ∧
    ∀ o, eligible pn o = true →
         (inject_Z lo <= filled pn (o_age o) <= inject_Z hi)%Q.
Proof.
  cbn [_build_extract variables caseSelect].
  assert (∀ cs, forallb (λ c, bool_decide (c ∈ IPUMS_VARS)) cs = true →
                ∀ c, c ∈ cs → c ∈ IPUMS_VARS) as Hall.
  { intros cs Hcs c Hc%list_elem_of_In. rewrite forallb_forall in Hcs.
    exact (bool_decide_eq_true_1 _ (Hcs c Hc)). }
  split; [by apply Hall|]. split; [by apply Hall|]. split; [|split].
  - intros c Hc%list_elem_of_In. simpl in Hc.
    destruct Hc as [<-|[<-|[<-|[<-|[<-|[<-|[]]]]]]]; auto;
      left; by apply (bool_decide_unpack _).
  - by apply (bool_decide_unpack _).
  - exists 25, 49. split; [done|]. intros o Hel.
    by apply eligible_iff in Hel as [_ Hage].
Qed.

(** ** Waiting for the extract *)

Lemma poll_extract_waiting timeout_s start p rest :
  waiting timeout_s start p →
  poll_extract timeout_s start (p :: rest) = poll_extract timeout_s start rest.
Proof.
  intros (js & status & Hr & Hs & Hst & Hclock). cbn [poll_extract].
  rewrite Hr, Hs. unfold timed_out.
  apply Qle_bool_iff in Hclock. rewrite Hclock. cbn [negb].
  destruct status as [| | |s| |]; try done.
  rewrite !bool_decide_eq_false_2; [done| |].
  - intros Hin. apply Hst. by apply list_elem_of_further.
  - intros ->. apply Hst. apply list_elem_of_here.
Qed.

Lemma poll_extract_step timeout_s start p rest o :
  poll_extract timeout_s start (p :: rest) = Some o →
  (waiting timeout_s start p ∧ poll_extract timeout_s start rest = Some o)
  ∨ (match o with
     | Returns js => completed p js
     | Raises TimeoutError => (timeout_s < p_clock p - start)%Q
     | Raises _ => True
     end).
Proof.
  cbn [poll_extract].
  destruct (p_reply p) as [| |js] eqn:Hr; [intros [= <-]; by right..|].
  destruct (dict_get js "status") as [status|f] eqn:Hs.
  2:{ intros [= <-]. right. destruct js; simpl in Hs; by simplify_eq. }
  assert ((if timed_out timeout_s start (p_clock p)
           then Some (Raises TimeoutError)
           else poll_extract timeout_s start rest) = Some o →
          match status with
          | JStr s => s ∉ ["completed"; "failed"; "canceled"]
          | JList _ | JDict _ => False
          | _ => True
          end →
          (waiting timeout_s start p
           ∧ poll_extract timeout_s start rest = Some o)
          ∨ match o with
            | Returns js0 => completed p js0
            | Raises TimeoutError => (timeout_s < p_clock p - start)%Q
            | Raises _ => True
            end) as Hsleep.
  { unfold timed_out. intros Ho Hst.
    destruct (Qle_bool (p_clock p - start) timeout_s) eqn:Hc; cbn [negb] in Ho.
    - left. split; [|done]. exists js, status.
      repeat split; [done..|]. by apply Qle_bool_iff.
    - right. injection Ho as <-. apply Qnot_le_lt. intros Hle.
      apply Qle_bool_iff in Hle. congruence. }
  destruct status as [| | |s| |]; try (intros Ho; by apply Hsleep);
    try (intros [= <-]; by right).
  case_bool_decide as Hdone.
  { intros [= <-]. right. by subst s. }
  case_bool_decide as Hfail.
  { intros [= <-]. by right. }
  intros Ho. apply Hsleep; [done|].
  intros Hin. apply elem_of_cons in Hin as [->|Hin]; done.
Qed.

(** X18. [poll_extract] returns a reply only when the extract is ready,
    and then whatever the clock says: it returns [js] exactly when the
    first pass that does not put the loop to sleep carries [js] with
    status "completed".  A reply in any other state is never returned. *)
Theorem poll_returns_completed timeout_s start passes js :
  poll_extract timeout_s start passes = Some (Returns js) ↔
  ∃ before p after,
    passes = (before ++ p :: after)%list ∧
    Forall (waiting timeout_s start) before ∧
    completed p js.
Proof.
  split.
  - induction passes as [|p rest IH]; [done|].
    intros [[Hw Hrest]|Hdone]%poll_extract_step.
    + destruct (IH Hrest) as (before & q & after & -> & Hbefore & Hq).
      exists (p :: before), q, after. split; [done|]. split; [|done].
      by constructor.
    + exists [], p, rest. split; [done|]. split; [constructor|done].
  - intros (before & p & after & -> & Hbefore & Hr & Hs).
    induction Hbefore as [|q before Hq _ IH].
    + cbn [app poll_extract]. rewrite Hr, Hs.
      by rewrite bool_decide_eq_true_2.
    + cbn [app]. by rewrite poll_extract_waiting.
Qed.

(** X19. [poll_extract] does not give up early: it raises TimeoutError
    only after a pass whose clock reading is more than [timeout_s] after
    the start, every earlier pass having put the loop to sleep; in
    particular the first request is always made. *)
Theorem poll_times_out_late timeout_s start passes :
  poll_extract timeout_s start passes = Some (Raises TimeoutError) →
  ∃ before p after,
    passes = (before ++ p :: after)%list ∧
    Forall (waiting timeout_s start) before ∧
    (timeout_s < p_clock p - start)%Q.
Proof.
  induction passes as [|p rest IH]; [done|].
  intros [[Hw Hrest]|Hlate]%poll_extract_step.
  - destruct (IH Hrest) as (before & q & after & -> & Hbefore & Hq).
    exists (p :: before), q, after. split; [done|]. split; [|done].
    by constructor.
  - exists [], p, rest. split; [done|]. split; [constructor|done].
Qed.

Lemma poll_extract_ends w timeout_s start passes (b : Q) :
  (∀ i p, passes !! i = Some p →
          (b + inject_Z (Z.of_nat i) * w <= p_clock p - start)%Q) →
  passes ≠ [] →
  (timeout_s < b + (inject_Z (Z.of_nat (length passes)) - 1) * w)%Q →
  is_Some (poll_extract timeout_s start passes).
Proof.
  revert b. induction passes as [|p rest IH]; intros b Hclock Hne Hlen; [done|].
  destruct (poll_extract timeout_s start (p :: rest)) as [o|] eqn:Ho; [eauto|].
  exfalso. cbn [poll_extract] in Ho.
  assert ((if timed_out timeout_s start (p_clock p)
           then Some (Raises TimeoutError)
           else poll_extract timeout_s start rest) = None → False) as Hsleep.
  { unfold timed_out.
    destruct (Qle_bool (p_clock p - start) timeout_s) eqn:Hc; cbn [negb]; [|done].
    apply Qle_bool_iff in Hc. intros Hrest.
    pose proof (Hclock 0%nat p eq_refl) as H0. simpl in H0.
    cbn [length] in Hlen. rewrite Nat2Z.inj_succ, <- Z.add_1_r in Hlen.
    rewrite inject_Z_plus in Hlen. change (inject_Z 1) with 1%Q in Hlen.
    destruct (IH (b + w)%Q) as [o Hsome]; [| | |congruence].
    - intros i q Hq. pose proof (Hclock (S i) q Hq) as Hi.
      rewrite Nat2Z.inj_succ, <- Z.add_1_r, inject_Z_plus in Hi.
      change (inject_Z 1) with 1%Q in Hi. lra.
    - intros ->. simpl in Hlen. lra.
    - lra. }
  destruct (p_reply p) as [| |js]; [done..|].
  destruct (dict_get js "status") as [[| | |s| |]|]; try done.
  repeat case_bool_decide; done.
Qed.

(** X20. The polling loop ends.  If every sleep lasts at least [wait_s]
    seconds (the clock reading of pass [i] is at least [i * wait_s]
    after the start), the loop has returned or raised by the pass
    number [n] as soon as [(n - 1) * wait_s] exceeds [timeout_s]: it
    makes at most [timeout_s / wait_s + 2] requests. *)
Theorem poll_extract_bounded wait_s timeout_s start passes :
  (∀ i p, passes !! i = Some p →
          (start + inject_Z (Z.of_nat i) * wait_s <= p_clock p)%Q) →
  passes ≠ [] →
  (timeout_s < (inject_Z (Z.of_nat (length passes)) - 1) * wait_s)%Q →
  is_Some (poll_extract timeout_s start passes).
Proof.
  intros Hclock Hne Hlen. apply (poll_extract_ends wait_s _ _ _ 0%Q).
  - intros i p Hp. specialize (Hclock i p Hp). lra.
  - done.
  - lra.
Qed.

(** ** The downloaded archive *)

Lemma substring_all s : substring 0 (String.length s) s = s.
Proof. induction s as [|a s IH]; simpl; [done|]. by f_equal. Qed.

Lemma substring_split s i :
  (i ≤ String.length s)%nat →
  substring 0 i s +:+ substring i (String.length s - i) s = s.
Proof.
  revert i. induction s as [|a s IH]; intros [|i] Hi;
    cbn [String.length] in Hi; try lia.
  - done.
  - change (String a (substring 0 (String.length s) s) = String a s).
    f_equal. apply substring_all.
  - change (String a (substring 0 i s
                      +:+ substring i (String.length s - i) s) = String a s).
    f_equal. apply IH. lia.
Qed.

Lemma substring_suffix stem suffix :
  substring (String.length stem) (String.length suffix) (stem +:+ suffix)
  = suffix.
Proof.
  induction stem as [|a stem IH]; [apply substring_all|exact IH].
Qed.

Lemma length_append_string s t :
  String.length (s +:+ t) = (String.length s + String.length t)%nat.
Proof.
  induction s as [|a s IH]; [done|].
  change (S (String.length (s +:+ t))
          = S (String.length s + String.length t)).
  by f_equal.
Qed.

Lemma endswith_iff s suffix :
  endswith s suffix = true ↔ ∃ stem, s = stem +:+ suffix.
Proof.
  unfold endswith. rewrite andb_true_iff, Nat.leb_le, String.eqb_eq. split.
  - intros [Hlen Hsub].
    exists (substring 0 (String.length s - String.length suffix) s).
    rewrite <- Hsub at 2.
    rewrite <- (substring_split s (String.length s - String.length suffix))
      at 1 by lia.
    do 2 f_equal. lia.
  - intros [stem ->]. rewrite length_append_string. split; [lia|].
    replace (String.length stem + String.length suffix - String.length suffix)%nat
      with (String.length stem) by lia.
    apply substring_suffix.
Qed.

(** X23. From the downloaded archive the member read is chosen by
    name: the name is that of the first member ending in ".parquet", and
    the member of that name is read, the last one if later members
    repeat the name (so the first ".parquet" member itself when its
    name occurs once).  Members with other names play no part.  An
    archive with no such member gives RuntimeError, whatever else it
    holds. *)
Theorem load_parquet_first_member {content} (read_parquet : content → outcome DataFrame)
    (zf before after : list (string * content)) name c :
  zf = (before ++ (name, c) :: after)%list →
  Forall (λ m, ¬ ∃ stem, fst m = stem +:+ ".parquet") before →
  (∃ stem, name = stem +:+ ".parquet") →
  (∃ c', last (c :: (snd <$> filter (λ m, fst m = name) after)) = Some c' ∧
         load_parquet_from_zip content read_parquet zf = read_parquet c' ∧
         (name ∉ fst <$> after → c' = c)) ∧
  load_parquet_from_zip content read_parquet before
    = Raises (RuntimeError NoParquet).
Proof.
  intros -> Hbefore Hname. unfold load_parquet_from_zip.
  assert (filter (λ n, endswith n ".parquet" = true) (fst <$> before) = [])
    as Hnone.
  { clear -Hbefore. induction Hbefore as [|m l Hm _ IH]; [done|].
    cbn [fmap list_fmap]. rewrite filter_cons, decide_False; [exact IH|].
    by rewrite endswith_iff. }
  split; [|by rewrite Hnone].
  rewrite fmap_app, filter_app, Hnone. cbn [fmap list_fmap app].
  rewrite filter_cons, decide_True by by apply endswith_iff.
  unfold zip_open. rewrite filter_app, filter_cons. cbn [fst].
  rewrite decide_True by done.
  assert (filter (λ m : string * content, m.1 = name) before = []) as ->.
  { clear -Hbefore Hname. induction Hbefore as [|m l Hm _ IH]; [done|].
    rewrite filter_cons, decide_False; [exact IH|].
    intros Hm'. apply Hm. by rewrite Hm'. }
  cbn [app]. rewrite <- fmap_last. cbn [fmap list_fmap snd].
  destruct (last (c :: (snd <$> filter (λ m : string * content, m.1 = name) after)))
    as [c'|] eqn:Hlast.
  2:{ by apply last_None in Hlast. }
  exists c'. split; [done|]. split; [done|].
  intros Hafter.
  assert (filter (λ m : string * content, m.1 = name) after = []) as Hnil.
  { clear -Hafter. induction after as [|m l IH]; [done|].
    rewrite filter_cons, decide_False.
    - apply IH. intros Hin. apply Hafter. cbn [fmap list_fmap].
      by apply list_elem_of_further.
    - intros Hm. apply Hafter. cbn [fmap list_fmap]. rewrite Hm.
      apply list_elem_of_here. }
  rewrite Hnil in Hlast. by injection Hlast as <-.
Qed.

(** ** The figures *)

(** X21. The bands drawn on the figures are the Period Tagger's periods:
    for a row of year [y] and month 1 to 12, its date lies in the first
    band iff P1 = 1 and in the second iff P2 = 1; it lies in the third
    iff P3 = 1 and the date is not after 1 January 2035, where the third
    band ends. *)
Theorem period_bands_match_tagger year month :
  1 ≤ month ≤ 12 →
  ∃ b1 b2 b3,
    _period_bands = [b1; b2; b3] ∧
    in_band (row_date year month) b1 = in_P1 (inject_Z year) ∧
    in_band (row_date year month) b2 = in_P2 (inject_Z year) ∧
    (in_band (row_date year month) b3 = true ↔
     in_P3 (inject_Z year) = true ∧ (year ≤ 2034 ∨ year = 2035 ∧ month = 1)).
Proof.
  intros Hm. eexists _, _, _. split; [reflexivity|].
  unfold in_band, row_date, day_le, in_P1, in_P2, in_P3. cbn [fst snd].
  rewrite !(Qle_bool_inject_l _ (inject_Z year) year),
    !(Qle_bool_inject_r _ (inject_Z year) year) by reflexivity.
  split; [|split; [|split]].
  - apply eq_iff_eq_true.
    rewrite !andb_true_iff, !orb_true_iff, !andb_true_iff, !orb_true_iff,
      !andb_true_iff, !Z.ltb_lt, !Z.eqb_eq, !Z.leb_le. lia.
  - apply eq_iff_eq_true.
    rewrite !andb_true_iff, !orb_true_iff, !andb_true_iff, !orb_true_iff,
      !andb_true_iff, !Z.ltb_lt, !Z.eqb_eq, !Z.leb_le. lia.
  - rewrite !andb_true_iff, !orb_true_iff, !andb_true_iff, !orb_true_iff,
      !andb_true_iff, !Z.ltb_lt, !Z.eqb_eq, !Z.leb_le. lia.
  - rewrite !andb_true_iff, !orb_true_iff, !andb_true_iff, !orb_true_iff,
      !andb_true_iff, !Z.ltb_lt, !Z.eqb_eq, !Z.leb_le. lia.
Qed.

End Behaviour.

(** * The examples *)

(** Closed equations between values are settled by evaluation. *)
Ltac evaluate :=
  lazymatch goal with
  | |- @eq ?T ?x ?y => exact (@eq_refl T y <: @eq T x y)
  end.

Ltac column df c :=
  let v := eval vm_compute in (df !! c) in
  lazymatch v with Some ?s => exists s end.

Ltac table_rows :=
  lazymatch goal with
  | |- has_rows ?df _ =>
      unfold has_rows;
      column df "EMPSTAT"; column df "AGE"; column df "YEAR";
      column df "MONTH"; column df "is_parent"; column df "own_ill_absent";
      repeat split; evaluate
  end.


Lemma period_indicators_witness :
  _make_periods decimal_number rates_example "YEAR" = Ok tagged_example ∧
  ∃ p1 p2 p3 : Z,
    (tagged_example !! "P1") ≫= (λ s, series_cells s !! 2%nat) = Some (Int p1) ∧
    (tagged_example !! "P2") ≫= (λ s, series_cells s !! 2%nat) = Some (Int p2) ∧
    (tagged_example !! "P3") ≫= (λ s, series_cells s !! 2%nat) = Some (Int p3) ∧
    ∀ y : Q, coerce decimal_number (Int 2020) = Some y →
      (p1 = 1 ↔ (inject_Z 1994 <= y <= inject_Z 2007)%Q) ∧
      (p2 = 1 ↔ (inject_Z 2008 <= y <= inject_Z 2019)%Q) ∧
      (p3 = 1 ↔ (inject_Z 2020 <= y)%Q) ∧
      (is_integral y = true → (inject_Z 1994 <= y)%Q → exactly_one p1 p2 p3) ∧
      ((inject_Z 1994 <= y)%Q →
       ¬ (inject_Z 2007 < y < inject_Z 2008)%Q →
       ¬ (inject_Z 2019 < y < inject_Z 2020)%Q → exactly_one p1 p2 p3) ∧
      ((y == inject_Z 2007)%Q → p1 = 1 ∧ p2 = 0 ∧ p3 = 0) ∧
      ((y == inject_Z 2008)%Q → p1 = 0 ∧ p2 = 1 ∧ p3 = 0) ∧
      ((y == inject_Z 2020)%Q → p3 = 1) ∧
      ((y < inject_Z 1994)%Q → p1 = 0 ∧ p2 = 0 ∧ p3 = 0).
Proof.
  split; [evaluate|].
  apply (period_indicators decimal_number rates_example tagged_example
           (Plain [Int 2007; Int 2007; Int 2020]) 2%nat (Int 2020));
    evaluate.
Defined.


Lemma parent_flags_rule_witness :
  ∃ df' (f g : Z),
    make_parent_flags decimal_number recoded_example = Ok df' ∧
    (df' !! "is_parent") ≫= (λ s, series_cells s !! 3%nat) = Some (Int f) ∧
    (df' !! "has_child_u5") ≫= (λ s, series_cells s !! 3%nat) = Some (Int g) ∧
    (f = 0 ∨ f = 1) ∧ (g = 0 ∨ g = 1) ∧
    (f = 1 ↔ (0 < filled decimal_number (Int 0)
              ∨ 0 < filled decimal_number (Int 2)
              ∨ 0 < filled decimal_number (Int 0))%Q) ∧
    (g = 1 ↔ (0 < filled decimal_number (Int 0))%Q) ∧
    ((0 < filled decimal_number (Int 0))%Q → f = 1).
Proof.
  apply (parent_flags_rule decimal_number recoded_example
           (Int64 [Some 0; Some 2; Some 1; Some 0; Some 0; Some 0])
           (Int64 [Some 0; Some 0; Some 0; Some 2; None; Some 0])
           (Int64 [Some 0; Some 0; Some 0; Some 0; Some 0; Some 0])
           (Int64 [Some 0; Some 1; Some 0; Some 0; Some 0; Some 0])
           3%nat (Int 0) (Int 2) (Int 0) (Int 0));
    evaluate.
Defined.

Lemma derived_flags_idempotent_witness :
  minimal_recode decimal_number raw_example = Ok recoded_example ∧
  make_parent_flags decimal_number recoded_example = Ok flagged_example ∧
  (∃ df2, minimal_recode decimal_number recoded_example = Ok df2 ∧
          df2 = recoded_example ∧
          df2 !! "own_ill_absent" = recoded_example !! "own_ill_absent") ∧
  (∃ df2, make_parent_flags decimal_number flagged_example = Ok df2 ∧
          df2 = flagged_example ∧
          df2 !! "is_parent" = flagged_example !! "is_parent" ∧
          df2 !! "has_child_u5" = flagged_example !! "has_child_u5").
Proof.
  split; [evaluate|]. split; [evaluate|].
  split.
  - apply (proj1 (derived_flags_idempotent decimal_number raw_example
                    recoded_example)).
    evaluate.
  - apply (proj2 (derived_flags_idempotent decimal_number recoded_example
                    flagged_example)).
    evaluate.
Defined.


Lemma ineligible_row_ignored_witness :
  has_rows flagged_example (example_before ++ example_row :: example_after) ∧
  coerce decimal_number (o_age example_row) = None ∧
  (coerce decimal_number (o_emp example_row) = None →
   filled decimal_number (o_emp example_row) = 0%Q) ∧
  (coerce decimal_number (o_age example_row) = None →
   filled decimal_number (o_age example_row) = 0%Q) ∧
  in_codes employed_codes 0%Q = false ∧
  Qle_bool (inject_Z 25) 0%Q = false ∧
  eligible decimal_number example_row = false ∧
  (∃ mask, eligibility_mask decimal_number flagged_example = Ok mask ∧
           mask !! length example_before = Some false) ∧
  has_rows (drop_row (length example_before) flagged_example)
    (example_before ++ example_after) ∧
  _aggregate_monthly_rates decimal_number decimal_int flagged_example =
  _aggregate_monthly_rates decimal_number decimal_int
    (drop_row (length example_before) flagged_example).
Proof.
  assert (has_rows flagged_example
            (example_before ++ example_row :: example_after)) as H1
    by table_rows.
  split; [exact H1|]. split; [evaluate|].
  apply (ineligible_row_ignored decimal_number decimal_int flagged_example
           example_before example_row example_after H1).
  right. evaluate.
Defined.



(** C6 (where the code departs from the claim). The Recoder works on the
    table it is given: after the call the caller's table is the recoded
    one, under the same reference. The Parent Classifier, which copies
    first, returns a new table and leaves its input as it was. *)
Theorem recoder_mutates_its_argument :
  minimal_recode_ref decimal_number 0%nat {[ 0%nat := raw_example ]}
    = Some ({[ 0%nat := recoded_example ]}, Ok 0%nat) ∧
  recoded_example ≠ raw_example ∧
  make_parent_flags_ref decimal_number 0%nat {[ 0%nat := recoded_example ]}
    = Some (<[ 1%nat := flagged_example ]> {[ 0%nat := recoded_example ]},
            Ok 1%nat).
Proof.
  split; [evaluate|]. split; [|evaluate].
  intros H. apply (f_equal (λ df : DataFrame, df !! "own_ill_absent")) in H.
  vm_compute in H. discriminate.
Qed.

(** C9 (where the code departs from the claim). The year column of
    [recoded_example] is a nullable Int64 column whose last entry is
    <NA> (the Recoder made it from a year that is not a number); on it
    the Period Tagger raises ValueError instead of writing three zeros. *)
Theorem period_tagger_raises_on_NA :
  recoded_example !! "YEAR"
    = Some (Int64 [Some 2007; Some 2007; Some 2007; Some 2020; Some 2020; None]) ∧
  _make_periods decimal_number recoded_example "YEAR" = Err ValueError.
Proof. split; evaluate. Qed.

(** ** Examples for the errors, invariants and compositions *)

Lemma parent_flags_leaves_input_witness :
  (∀ r0, is_Some (({[ 0%nat := recoded_example ]} : gmap nat DataFrame) !! r0) →
     (<[ 1%nat := flagged_example ]> {[ 0%nat := recoded_example ]} : gmap nat DataFrame) !! r0
     = ({[ 0%nat := recoded_example ]} : gmap nat DataFrame) !! r0) ∧
  ∀ r', Ok 1%nat = Ok r' →
    ({[ 0%nat := recoded_example ]} : gmap nat DataFrame) !! r' = None ∧
    ∃ df df',
      ({[ 0%nat := recoded_example ]} : gmap nat DataFrame) !! 0%nat = Some df ∧
      (<[ 1%nat := flagged_example ]> {[ 0%nat := recoded_example ]} : gmap nat DataFrame) !! r'
        = Some df' ∧
      dom df' = dom df ∪ {["is_parent"; "has_child_u5"]} ∧
      ∀ c, c ≠ "is_parent" → c ≠ "has_child_u5" → df' !! c = df !! c.
Proof.
  apply (parent_flags_leaves_input decimal_number 0%nat
           {[ 0%nat := recoded_example ]}).
  evaluate.
Defined.

Lemma period_tagger_shape_witness :
  (∀ c, c ∉ ["P1"; "P2"; "P3"] → tagged_example !! c = rates_example !! c) ∧
  ∀ p, p ∈ ["P1"; "P2"; "P3"] →
    ∃ l, tagged_example !! p = Some (Plain l) ∧
         length l = series_len (Plain [Int 2007; Int 2007; Int 2020]) ∧
         Forall is_flag l.
Proof.
  apply (period_tagger_shape decimal_number rates_example "YEAR");
    evaluate.
Defined.

Lemma no_eligible_rows_no_rates_witness :
  has_rows idle_example idle_observations ∧
  _aggregate_monthly_rates decimal_number decimal_int idle_example
    = Ok (rate_table [] []).
Proof.
  assert (has_rows idle_example idle_observations) as Hrows by table_rows.
  split; [exact Hrows|].
  apply (no_eligible_rows_no_rates decimal_number decimal_int idle_example
           idle_observations Hrows).
  repeat (apply Forall_cons; split; [left; evaluate|]). constructor.
Defined.


Lemma recoder_keeps_columns_witness :
  dom recoded_example = dom raw_example ∪ {["own_ill_absent"]} ∧
  ∀ c, c ∉ recoder_columns → c ≠ "own_ill_absent" →
       recoded_example !! c = raw_example !! c.
Proof.
  apply (recoder_keeps_columns decimal_number raw_example). evaluate.
Defined.

Lemma recoder_preserves_numbers_witness :
  ∃ l, recoded_example !! "AGE" = Some (Int64 l) ∧
    length l
      = series_len (Plain [Int 30; Text "35"; Int 40; Int 28; Null; Int 30]) ∧
    ∀ i x,
      series_cells (Plain [Int 30; Text "35"; Int 40; Int 28; Null; Int 30])
        !! i = Some x →
      match coerce decimal_number x with
      | Some q => ∃ z, l !! i = Some (Some z) ∧ (q == inject_Z z)%Q
      | None => l !! i = Some None
      end.
Proof.
  apply (recoder_preserves_numbers decimal_number raw_example).
  - evaluate.
  - apply list_elem_of_In. simpl. auto 20.
  - evaluate.
  - evaluate.
Defined.

Lemma recoder_type_error_witness :
  exact_numbers decimal_number fraction_example = true ∧
  whole_numbers decimal_number fraction_example = false ∧
  (minimal_recode decimal_number fraction_example = Err TypeError ↔
   whole_numbers decimal_number fraction_example = false).
Proof.
  split; [evaluate|]. split; [evaluate|].
  apply (recoder_type_error decimal_number fraction_example). evaluate.
Defined.

Lemma parent_flags_raw_or_recoded_witness :
  ∃ df3, make_parent_flags decimal_number recoded_example = Ok df3 ∧
    df3 !! "is_parent" = raw_flagged_example !! "is_parent" ∧
    df3 !! "has_child_u5" = raw_flagged_example !! "has_child_u5".
Proof.
  apply (parent_flags_raw_or_recoded decimal_number raw_example); evaluate.
Defined.

Lemma recoder_failure_state_witness :
  ∃ df',
    ({[ 0%nat := half_recoded_example ]} : gmap nat DataFrame)
      = <[ 0%nat := df' ]> {[ 0%nat := no_reason_example ]} ∧
    dom df' = dom no_reason_example ∧
    (∀ c, c ∉ recoder_columns → df' !! c = no_reason_example !! c) ∧
    (∀ c s, c ∈ recoder_columns → no_reason_example !! c = Some s →
       df' !! c = Some s ∨ ∃ l, df' !! c = Some (Int64 l)) ∧
    (∀ k, KeyError "WHYABSNT" = KeyError k →
       (k = "ABSENT" ∨ k = "WHYABSNT") ∧ no_reason_example !! k = None ∧
       ∀ c s, c ∈ recoder_columns → no_reason_example !! c = Some s →
              ∃ l, df' !! c = Some (Int64 l)).
Proof.
  apply (recoder_failure_state decimal_number 0%nat
           {[ 0%nat := no_reason_example ]}); evaluate.
Defined.

Lemma rates_after_recoding_witness :
  ∃ (ts : list (Z * Z * Z)) (rs : list Q),
    _aggregate_monthly_rates decimal_number decimal_int flagged_example
      = Ok (rate_table ts (Float <$> rs)) ∧
    length rs = length ts ∧
    Forall (λ t : Z * Z * Z, t.2 = 0 ∨ t.2 = 1) ts.
Proof.
  apply (rates_after_recoding decimal_number decimal_int raw_example
           recoded_example flagged_example observations_example).
  - evaluate.
  - evaluate.
  - table_rows.
Defined.

Lemma ols_accepts_monthly_rates_witness :
  (∃ (ys ms ps : list Z) (rs : list cell),
     rates_example
       = <["rate" := Plain rs]>
         (<["is_parent" := Plain (Int <$> ps)]>
          (<["MONTH" := Plain (Int <$> ms)]>
           (<["YEAR" := Plain (Int <$> ys)]> (∅ : DataFrame)))) ∧
     length ms = length ys ∧ length ps = length ys ∧ length rs = length ys) ∧
  ∃ tagged fit,
    _make_periods decimal_number rates_example "YEAR" = Ok tagged ∧
    run_monthlevel_ols decimal_number decimal_int rates_example = Ok fit.
Proof.
  apply (ols_accepts_monthly_rates decimal_number decimal_int flagged_example).
  evaluate.
Defined.



Lemma requested_years_are_tagged_witness :
  ∃ df', _make_periods decimal_number rates_example "YEAR" = Ok df' ∧
    ∀ i, (i < series_len (Plain [Int 2007; Int 2007; Int 2020]))%nat →
      ∃ p1 p2 p3 : Z,
        (df' !! "P1") ≫= (λ s, series_cells s !! i) = Some (Int p1) ∧
        (df' !! "P2") ≫= (λ s, series_cells s !! i) = Some (Int p2) ∧
        (df' !! "P3") ≫= (λ s, series_cells s !! i) = Some (Int p3) ∧
        exactly_one p1 p2 p3.
Proof.
  apply (requested_years_are_tagged decimal_number 2026 rates_example).
  - evaluate.
  - repeat (apply Forall_cons; split;
              [eexists; split; [reflexivity|];
               apply list_elem_of_In; simpl; auto 50|]).
    constructor.
Defined.

Lemma poll_times_out_late_witness :
  ∃ before p after,
    passes_example = (before ++ p :: after)%list ∧
    Forall (waiting 25 100) before ∧
    (25 < p_clock p - 100)%Q.
Proof.
  apply (poll_times_out_late 25 100 passes_example). evaluate.
Defined.

Lemma poll_extract_bounded_witness :
  is_Some (poll_extract 25 100 passes_example).
Proof.
  apply (poll_extract_bounded 10 25 100 passes_example).
  - intros [|[|[|[|i]]]] p; simpl; intros [= <-]; vm_compute; discriminate.
  - discriminate.
  - vm_compute. reflexivity.
Defined.

Lemma period_bands_match_tagger_witness :
  ∃ b1 b2 b3,
    _period_bands = [b1; b2; b3] ∧
    in_band (row_date 2020 3) b1 = in_P1 (inject_Z 2020) ∧
    in_band (row_date 2020 3) b2 = in_P2 (inject_Z 2020) ∧
    (in_band (row_date 2020 3) b3 = true ↔
     in_P3 (inject_Z 2020) = true ∧ (2020 ≤ 2034 ∨ 2020 = 2035 ∧ 3 = 1)).
Proof. apply (period_bands_match_tagger 2020 3). lia. Defined.

Lemma load_parquet_first_member_witness :
  load_parquet_from_zip DataFrame Returns archive_example
    = Returns recoded_example ∧
  (∃ c',
     last (raw_example
           :: (snd <$> filter (λ m, fst m = "cps_00007.parquet")
                         [("codebook.parquet", (∅ : DataFrame));
                          ("cps_00007.parquet", recoded_example)]))
       = Some c' ∧
     load_parquet_from_zip DataFrame Returns archive_example = Returns c' ∧
     ("cps_00007.parquet"
        ∉ fst <$> [("codebook.parquet", (∅ : DataFrame));
                   ("cps_00007.parquet", recoded_example)] →
      c' = raw_example)) ∧
  load_parquet_from_zip DataFrame Returns [("readme.txt", ∅)]
    = Raises (RuntimeError NoParquet).
Proof.
  split; [evaluate|].
  apply (load_parquet_first_member Returns archive_example
           [("readme.txt", ∅)]
           [("codebook.parquet", ∅); ("cps_00007.parquet", recoded_example)]
           "cps_00007.parquet" raw_example).
  - reflexivity.
  - apply Forall_cons. split; [|constructor].
    intros H. apply endswith_iff in H. vm_compute in H. discriminate.
  - by exists "cps_00007".
Defined.

Lemma period_tagger_idempotent_witness :
  _make_periods decimal_number rates_example "YEAR" = Ok tagged_example ∧
  _make_periods decimal_number tagged_example "YEAR" = Ok tagged_example.
Proof.
  split; [evaluate|].
  apply (period_tagger_idempotent decimal_number rates_example "YEAR").
  - apply (bool_decide_unpack _). vm_compute. exact I.
  - evaluate.
Defined.

Lemma aggregator_not_rerunnable_witness :
  _aggregate_monthly_rates decimal_number decimal_int rates_example
    = Err AttributeError.
Proof.
  apply (aggregator_not_rerunnable decimal_number decimal_int flagged_example).
  evaluate.
Defined.
